(** * Development server with API proxy: a shallow embedding

    The handler class [ProxyHTTPRequestHandler] of [app/test-server.py] is
    embedded method by method.  Python [str] values are Latin-1 strings (the
    encoding under which the HTTP layer decodes request lines and header
    blocks), so Rocq's [string] of 8-bit characters represents them exactly.
    A method is a computation over the handler object [self]; it can update
    [self.path], consume [self.rfile], raise an exception, and calls into
    the base class or the platform are recorded, in order, as events. *)

From Stdlib Require Import List String Ascii Bool ZArith Lia DecimalString.
From Stdlib Require Import Strings.Byte.
Import ListNotations.

Local Open Scope string_scope.
Local Open Scope Z_scope.

(** ** Python string operations used by the handler *)

Module Str.

(** [s.startswith(p)] *)
Fixpoint startswith (s p : string) {struct p} : bool :=
  match p with
  | EmptyString => true
  | String a p' =>
      match s with
      | EmptyString => false
      | String b s' => Ascii.eqb a b && startswith s' p'
      end
  end.

(** [s.endswith(c)] for a one-character suffix. *)
Fixpoint endswith_char (s : string) (c : ascii) : bool :=
  match s with
  | EmptyString => false
  | String a EmptyString => Ascii.eqb a c
  | String _ s' => endswith_char s' c
  end.

(** [c in s] for a one-character [c]. *)
Fixpoint contains (c : ascii) (s : string) : bool :=
  match s with
  | EmptyString => false
  | String a s' => Ascii.eqb a c || contains c s'
  end.

(** [s.lstrip(c)] for a one-character strip set. *)
Fixpoint lstrip (s : string) (c : ascii) : string :=
  match s with
  | EmptyString => EmptyString
  | String a s' => if Ascii.eqb a c then lstrip s' c else s
  end.

(** [s.split(sep)] for a one-character separator; the result is never
    empty. *)
Fixpoint split (s : string) (sep : ascii) : list string :=
  match s with
  | EmptyString => [EmptyString]
  | String a s' =>
      if Ascii.eqb a sep then EmptyString :: split s' sep
      else match split s' sep with
           | seg :: rest => String a seg :: rest
           | [] => [String a EmptyString]
           end
  end.

(** [l[-1]] on a list of strings. *)
Definition last (l : list string) : string := List.last l EmptyString.

(** [s[n:]] *)
Fixpoint drop (n : nat) (s : string) : string :=
  match n, s with
  | O, _ => s
  | S _, EmptyString => EmptyString
  | S k, String _ s' => drop k s'
  end.

(** Scanner behind [replace]: [skip] counts the characters of a match
    that are still to be passed over. *)
Fixpoint replace_from (skip : nat) (s old new : string) : string :=
  match s with
  | EmptyString => EmptyString
  | String a s' =>
      match skip with
      | S k => replace_from k s' old new
      | O =>
          if startswith s old
          then new ++ replace_from (Nat.pred (String.length old)) s' old new
          else String a (replace_from O s' old new)
      end
  end.

(** [s.replace(old, new)]: every leftmost non-overlapping occurrence of
    [old] is replaced.  With an empty [old] Python inserts [new] before
    every character and at the end. *)
Fixpoint interleave (s new : string) : string :=
  match s with
  | EmptyString => new
  | String a s' => new ++ String a (interleave s' new)
  end.

Definition replace (s old new : string) : string :=
  match old with
  | EmptyString => interleave s new
  | _ => replace_from O s old new
  end.

(** [c.lower()] on Latin-1: [A-Z] and the accented capitals
    U+00C0..U+00DE other than the multiplication sign U+00D7. *)
Definition lower_char (c : ascii) : ascii :=
  let n := nat_of_ascii c in
  if ((65 <=? n) && (n <=? 90))%nat
     || ((192 <=? n) && (n <=? 222) && negb (n =? 215))%nat
  then ascii_of_nat (n + 32)
  else c.

(** [s.lower()] *)
Fixpoint lower (s : string) : string :=
  match s with
  | EmptyString => EmptyString
  | String a s' => String (lower_char a) (lower s')
  end.

(** [x in l] for a list of strings. *)
Definition mem (x : string) (l : list string) : bool :=
  existsb (String.eqb x) l.

(** [str(n)] for an [int]. *)
Definition of_Z (n : Z) : string := NilZero.string_of_int (Z.to_int n).

(** Substring test, by position. *)
Fixpoint occurs (pat s : string) : bool :=
  startswith s pat ||
  match s with
  | EmptyString => false
  | String _ s' => occurs pat s'
  end.

End Str.

(** [posixpath.join(a, b)] for two components. *)
Definition os_path_join (a b : string) : string :=
  if Str.startswith b "/" then b
  else if (a =? "")%string || Str.endswith_char a "/" then a ++ b
  else a ++ "/" ++ b.

(** ** Exceptions and results *)

(** The exception classes the handler tells apart: [urllib.error.HTTPError]
    with its [code] and [reason], and every other subclass of [Exception]
    with its class name and [str(e)]. *)
Inductive exn : Type :=
| HTTPError (code : Z) (reason : string)
| Exception (type_name : string) (message : string).

Inductive result (A : Type) : Type :=
| Ok (a : A)
| Raise (e : exn).
Arguments Ok {A} a.
Arguments Raise {A} e.

(** ** Requests, responses and the handler object *)

Abbreviation bytes := (list byte) (only parsing).

(** A header block in arrival order, as [email.message.Message] keeps it. *)
Definition header_list := list (string * string).

Inductive Method : Type := GET | POST | OPTIONS.

Definition method_name (m : Method) : string :=
  match m with GET => "GET" | POST => "POST" | OPTIONS => "OPTIONS" end.

(** [urllib.request.Request(url, data=, headers=, method=)] *)
Record Request : Type := mkRequest {
  full_url : string;
  data : option bytes;
  req_headers : header_list;
  req_method : Method
}.

(** The object [urlopen] yields: [status], [headers.items()] and the
    outcome of [read()]. *)
Record HTTPResponse : Type := mkHTTPResponse {
  status : Z;
  resp_headers : header_list;
  read : result bytes
}.

(** The fields of [self] the handler uses: [self.path], [self.headers] and
    the bytes still unread on [self.rfile]. *)
Record Handler : Type := mkHandler {
  path : string;
  headers : header_list;
  rfile : bytes
}.

(** [self.headers.get(name)]: first header whose lower-cased name equals
    the lower-cased [name]; [None] when absent. *)
Fixpoint headers_get (hs : header_list) (name : string) : option string :=
  match hs with
  | [] => None
  | (k, v) :: hs' =>
      if (Str.lower k =? Str.lower name)%string then Some v
      else headers_get hs' name
  end.

(** [self.headers.get(name, failobj)] *)
Definition headers_get_default (hs : header_list) (name failobj : string)
  : string :=
  match headers_get hs name with Some v => v | None => failobj end.

(** ** The platform the handler runs on *)

(** Python library functions the handler calls. *)
Record Library : Type := mkLibrary {
  (** [urllib.parse.urlparse(url).path]; may raise [ValueError]. *)
  urlparse_path : string -> result string;
  (** [int(s)] on a string; raises [ValueError] on a malformed literal. *)
  int : string -> result Z
}.

(** The local filesystem as seen through [os]. *)
Record FileSystem : Type := mkFileSystem {
  getcwd : result string;
  isdir : string -> result bool
}.

(** The remote host as seen through [urllib.request.urlopen]. *)
Record Network : Type := mkNetwork {
  urlopen : Request -> result HTTPResponse
}.

(** ** Effects *)

(** Calls that leave the handler, in program order. *)
Inductive event : Type :=
| Print (line : string)
| Urlopen (req : Request)
| SendResponse (code : Z)
| SendHeader (name value : string)
| EndHeaders
| WfileWrite (body : bytes)
| SendError (code : Z) (message : string)
| SuperDoGET (request_path : string).

(** A method body: reads and updates [self], returns or raises, and leaves
    a trace.  State changes and events made before an exception stay. *)
Definition M (A : Type) : Type := Handler -> result A * Handler * list event.

Definition ret {A} (a : A) : M A := fun self => (Ok a, self, []).

Definition bind {A B} (m : M A) (k : A -> M B) : M B :=
  fun self =>
    match m self with
    | (Ok a, self1, t1) =>
        match k a self1 with
        | (r, self2, t2) => (r, self2, (t1 ++ t2)%list)
        end
    | (Raise e, self1, t1) => (Raise e, self1, t1)
    end.

Definition lift {A} (r : result A) : M A := fun self => (r, self, []).

Definition emit (e : event) : M unit := fun self => (Ok tt, self, [e]).

Definition get_self : M Handler := fun self => (Ok self, self, []).

(** [self.path = p] *)
Definition set_path (p : string) : M unit :=
  fun self => (Ok tt, mkHandler p (headers self) (rfile self), []).

(** [self.rfile.read(n)] *)
Definition rfile_read (n : Z) : M bytes :=
  fun self =>
    (Ok (firstn (Z.to_nat n) (rfile self)),
     mkHandler (path self) (headers self) (skipn (Z.to_nat n) (rfile self)),
     []).

(** [try: body except <classes> as e: handler e] *)
Definition try_except {A} (body : M A) (handler : exn -> M A) : M A :=
  fun self =>
    match body self with
    | (Ok a, self1, t1) => (Ok a, self1, t1)
    | (Raise e, self1, t1) =>
        match handler e self1 with
        | (r, self2, t2) => (r, self2, (t1 ++ t2)%list)
        end
    end.

(** [for x in l: body x] *)
Fixpoint for_each {A} (l : list A) (body : A -> M unit) : M unit :=
  match l with
  | [] => ret tt
  | x :: l' => bind (body x) (fun _ => for_each l' body)
  end.

Declare Scope py_scope.
Delimit Scope py_scope with py.
Notation "x <- m ;; k" := (bind m (fun x => k))
  (at level 61, m at next level, right associativity) : py_scope.
Notation "m ;; k" := (bind m (fun _ => k))
  (at level 61, right associativity) : py_scope.

Definition run {A} (m : M A) (self : Handler) := m self.
Definition outcome {A} (x : result A * Handler * list event) : result A :=
  fst (fst x).
Definition final {A} (x : result A * Handler * list event) : Handler :=
  snd (fst x).
Definition trace {A} (x : result A * Handler * list event) : list event :=
  snd x.

(** Base-class and platform calls, as the handler writes them. *)
Definition print (line : string) : M unit := emit (Print line).
Definition send_response (code : Z) : M unit := emit (SendResponse code).
Definition send_header (name value : string) : M unit :=
  emit (SendHeader name value).
Definition end_headers : M unit := emit EndHeaders.
Definition wfile_write (body : bytes) : M unit := emit (WfileWrite body).
Definition send_error (code : Z) (message : string) : M unit :=
  emit (SendError code message).
Definition super_do_GET : M unit :=
  fun self => (Ok tt, self, [SuperDoGET (path self)]).

(** ** The handler *)

Definition PORT : Z := 9000.
Definition PROXY_HOST : string := "https://iwalton.com".

Local Open Scope py_scope.

Section Forwarder.

Variable lib : Library.
Variable net : Network.

(** [with urllib.request.urlopen(req) as response] *)
Definition urlopen_call (req : Request) : M HTTPResponse :=
  emit (Urlopen req) ;; lift (urlopen net req).

(** [proxy_request(self, method)] *)
Definition proxy_request (method : Method) : M unit :=
  try_except
    (self <- get_self ;;
     let target_url := PROXY_HOST ++ path self in
     print ("[PROXY] " ++ method_name method ++ " " ++ path self
            ++ " -> " ++ target_url) ;;
     body <-
       match method with
       | POST =>
           content_length <-
             lift (match headers_get (headers self) "Content-Length" with
                   | Some v => int lib v
                   | None => Ok 0
                   end) ;;
           if content_length >? 0
           then (b <- rfile_read content_length ;; ret (Some b))
           else ret None
       | _ => ret None
       end ;;
     let hdrs :=
       [("User-Agent",
         headers_get_default (headers self) "User-Agent" "Mozilla/5.0");
        ("Content-Type",
         headers_get_default (headers self) "Content-Type"
                             "application/json")] in
     let hdrs :=
       match headers_get (headers self) "Cookie" with
       | Some c => (hdrs ++ [("Cookie", c)])%list
       | None => hdrs
       end in
     let req := mkRequest target_url body hdrs method in
     response <- urlopen_call req ;;
     send_response (status response) ;;
     for_each (resp_headers response)
       (fun '(header, value) =>
          if negb (Str.mem (Str.lower header)
                           ["transfer-encoding"; "connection"])
          then
            let value :=
              if (Str.lower header =? "set-cookie")%string
              then Str.replace (Str.replace value "; Secure" "")
                               ";Secure" ""
              else value in
            send_header header value
          else ret tt) ;;
     send_header "Access-Control-Allow-Origin" "*" ;;
     send_header "Access-Control-Allow-Methods" "GET, POST, OPTIONS" ;;
     send_header "Access-Control-Allow-Headers" "Content-Type" ;;
     end_headers ;;
     body <- lift (read response) ;;
     wfile_write body)
    (fun e =>
       match e with
       | HTTPError code reason =>
           print ("[PROXY ERROR] HTTP " ++ Str.of_Z code ++ ": " ++ reason) ;;
           send_error code reason
       | Exception type_name message =>
           print ("[PROXY ERROR] " ++ type_name ++ ": " ++ message) ;;
           send_error 500 ("Proxy error: " ++ message)
       end).

(** [do_POST(self)] *)
Definition do_POST : M unit :=
  self <- get_self ;;
  if Str.startswith (path self) "/spa-api"
     || Str.startswith (path self) "/spwg-api"
     || Str.startswith (path self) "/theme/"
  then proxy_request POST
  else send_error 405 "Method Not Allowed".

(** [do_OPTIONS(self)] *)
Definition do_OPTIONS : M unit :=
  send_response 200 ;;
  send_header "Access-Control-Allow-Origin" "*" ;;
  send_header "Access-Control-Allow-Methods" "GET, POST, OPTIONS" ;;
  send_header "Access-Control-Allow-Headers" "Content-Type" ;;
  end_headers.


End Forwarder.

Section Router.

Variable lib : Library.
Variable fs : FileSystem.
Variable net : Network.

(** [do_GET(self)] *)
Definition do_GET : M unit :=
  self <- get_self ;;
  if Str.startswith (path self) "/spa-api"
     || Str.startswith (path self) "/spwg-api"
     || Str.startswith (path self) "/theme/"
  then proxy_request lib net GET
  else
    path <- lift (urlparse_path lib (path self)) ;;
    (if negb (Str.contains "." (Str.last (Str.split path "/")))
        && negb (path =? "/")%string
     then
       try_except
         (cwd <- lift (getcwd fs) ;;
          let full_path := os_path_join cwd (Str.lstrip path "/") in
          is_dir <- lift (isdir fs full_path) ;;
          if negb is_dir then set_path "/index.html" else ret tt)
         (fun _ => set_path "/index.html")
     else ret tt) ;;
    super_do_GET.

(** The base class calls [do_<command>] for the request's method. *)
Definition handle (command : Method) : M unit :=
  match command with
  | GET => do_GET
  | POST => do_POST lib net
  | OPTIONS => do_OPTIONS
  end.

End Router.

(** ** Vocabulary of the specification *)

(** The configured forward prefixes. *)
Definition forward_prefixes : list string :=
  ["/spa-api"; "/spwg-api"; "/theme/"].

(** A path is forward-eligible when it starts with a configured prefix. *)
Definition forward_eligible (p : string) : bool :=
  existsb (Str.startswith p) forward_prefixes.

(** The final path segment: what [path.split('/')[-1]] selects. *)
Definition last_segment (p : string) : string := Str.last (Str.split p "/").

(** What the [try] block of [do_GET] computes about a URL path: whether
    it names a directory under the working directory, or the exception
    that interrupts the computation. *)
Definition directory_check (fs : FileSystem) (p : string) : result bool :=
  match getcwd fs with
  | Ok cwd => isdir fs (os_path_join cwd (Str.lstrip p "/"))
  | Raise e => Raise e
  end.

(** [self] after [self.path = p]. *)
Definition with_path (self : Handler) (p : string) : Handler :=
  mkHandler p (headers self) (rfile self).

(** The three CORS headers. *)
Definition cors_headers : header_list :=
  [("Access-Control-Allow-Origin", "*");
   ("Access-Control-Allow-Methods", "GET, POST, OPTIONS");
   ("Access-Control-Allow-Headers", "Content-Type")].

(** Upstream header names that are not relayed. *)
Definition deny_list : list string := ["transfer-encoding"; "connection"].

(** The [Set-Cookie] rewrite. *)
Definition strip_secure (value : string) : string :=
  Str.replace (Str.replace value "; Secure" "") ";Secure" "".

(** The value under which an upstream header is relayed. *)
Definition relay_value (header value : string) : string :=
  if (Str.lower header =? "set-cookie")%string then strip_secure value
  else value.

(** The upstream headers as relayed: deny-listed names dropped, the
    others kept in order with their relay value. *)
Definition relayed_headers (hs : header_list) : header_list :=
  map (fun '(h, v) => (h, relay_value h v))
      (filter (fun '(h, _) => negb (Str.mem (Str.lower h) deny_list)) hs).

(** ** The caller-visible response of a trace *)

(** The status line the caller reads first. *)
Fixpoint response_status (t : list event) : option Z :=
  match t with
  | [] => None
  | SendResponse code :: _ => Some code
  | SendError code _ :: _ => Some code
  | _ :: t' => response_status t'
  end.

(** The headers the handler sends. *)
Fixpoint response_headers (t : list event) : header_list :=
  match t with
  | [] => []
  | SendHeader k v :: t' => (k, v) :: response_headers t'
  | _ :: t' => response_headers t'
  end.

(** The bytes the handler writes after the header block. *)
Fixpoint response_body (t : list event) : bytes :=
  match t with
  | [] => []
  | WfileWrite b :: t' => (b ++ response_body t')%list
  | _ :: t' => response_body t'
  end.

(** The outbound requests of a trace. *)
Fixpoint outbound_requests (t : list event) : list Request :=
  match t with
  | [] => []
  | Urlopen req :: t' => req :: outbound_requests t'
  | _ :: t' => outbound_requests t'
  end.

(** ** A reference platform for concrete runs *)

Module Reference.

(** [s] up to the first [c]. *)
Fixpoint cut_at (c : ascii) (s : string) : string :=
  match s with
  | EmptyString => EmptyString
  | String a s' => if Ascii.eqb a c then EmptyString
                   else String a (cut_at c s')
  end.

(** [_splitparams(url)[0]]: the parameters of the last segment go. *)
Fixpoint strip_params (s : string) : string :=
  match s with
  | EmptyString => EmptyString
  | String a s' =>
      if Str.contains "/" s then String a (strip_params s')
      else cut_at ";" s
  end.

(** [urlparse(url).path] on a request target in origin form (one leading
    slash, no control characters): there is no scheme and no authority,
    the fragment goes at the first [#], then the query at the first [?],
    then the parameters of the last segment. *)
Definition origin_form_path (url : string) : string :=
  strip_params (cut_at "?" (cut_at "#" url)).

Fixpoint digits (acc : Z) (s : string) : option Z :=
  match s with
  | EmptyString => Some acc
  | String a s' =>
      let n := nat_of_ascii a in
      if ((48 <=? n) && (n <=? 57))%nat
      then digits (10 * acc + Z.of_nat (n - 48)) s'
      else None
  end.

(** An [int] for the examples: it reads a run of ASCII digits as Python
    does and rejects everything else, where Python also admits a sign,
    surrounding blanks and underscores between digits. *)
Definition int_decimal (s : string) : result Z :=
  match s with
  | EmptyString =>
      Raise (Exception "ValueError"
               "invalid literal for int() with base 10: ''")
  | _ =>
      match digits 0 s with
      | Some n => Ok n
      | None =>
          Raise (Exception "ValueError"
                   ("invalid literal for int() with base 10: '" ++ s ++ "'"))
      end
  end.

Definition library : Library :=
  mkLibrary (fun url => Ok (origin_form_path url)) int_decimal.

(** A document root [/srv/www] holding the directory [assets]. *)
Definition filesystem : FileSystem :=
  mkFileSystem (Ok "/srv/www")
               (fun p => Ok ((p =? "/srv/www/")%string
                             || (p =? "/srv/www/assets")%string)).


(** A working directory that was removed under the running server. *)
Definition broken_filesystem : FileSystem :=
  mkFileSystem
    (Raise (Exception "FileNotFoundError"
              "[Errno 2] No such file or directory"))
    (fun _ => Ok false).

(** An upstream that answers every request with [response]. *)
Definition upstream (response : result HTTPResponse) : Network :=
  mkNetwork (fun _ => response).

Definition request (p : string) : Handler := mkHandler p [] [].

End Reference.

(** ** Routing decisions *)

(** The handler forwards a request when handling it is running
    [proxy_request] with the request's method. *)
Definition forwards (lib : Library) (fs : FileSystem) (net : Network)
  (command : Method) (self : Handler) : Prop :=
  handle lib fs net command self = proxy_request lib net command self.

(** The handler serves the local file named by the request path. *)
Definition serves_file (lib : Library) (fs : FileSystem) (net : Network)
  (self : Handler) : Prop :=
  do_GET lib fs net self = (Ok tt, self, [SuperDoGET (path self)]).

(** The handler replaces the request path by [/index.html] and serves the
    SPA entry document. *)
Definition serves_fallback (lib : Library) (fs : FileSystem) (net : Network)
  (self : Handler) : Prop :=
  do_GET lib fs net self
  = (Ok tt, with_path self "/index.html", [SuperDoGET "/index.html"]).

(** ** The stages of [proxy_request] *)

(** The first line [proxy_request] prints. *)
Definition announcement (m : Method) (self : Handler) : event :=
  Print ("[PROXY] " ++ method_name m ++ " " ++ path self ++ " -> "
         ++ PROXY_HOST ++ path self).

(** The header dictionary of the outbound request. *)
Definition outbound_headers (self : Handler) : header_list :=
  ([("User-Agent",
     headers_get_default (headers self) "User-Agent" "Mozilla/5.0");
    ("Content-Type",
     headers_get_default (headers self) "Content-Type" "application/json")]
   ++ match headers_get (headers self) "Cookie" with
      | Some c => [("Cookie", c)]
      | None => []
      end)%list.

(** The declared body length of a POST: [int] of the [Content-Length]
    header, [0] when the header is absent. *)
Definition declared_length (lib : Library) (self : Handler) : result Z :=
  match headers_get (headers self) "Content-Length" with
  | Some v => int lib v
  | None => Ok 0
  end.

(** The request [proxy_request] has built when it reaches [urlopen],
    together with [self] once the body is read; or the exception raised
    before that point. *)
Definition outbound (lib : Library) (m : Method) (self : Handler)
  : result (Request * Handler) :=
  let req body :=
    mkRequest (PROXY_HOST ++ path self) body (outbound_headers self) m in
  match m with
  | POST =>
      match declared_length lib self with
      | Raise e => Raise e
      | Ok n =>
          if n >? 0
          then Ok (req (Some (firstn (Z.to_nat n) (rfile self))),
                   mkHandler (path self) (headers self)
                             (skipn (Z.to_nat n) (rfile self)))
          else Ok (req None, self)
      end
  | _ => Ok (req None, self)
  end.

(** What the two [except] clauses of [proxy_request] do with [e]. *)
Definition error_events (e : exn) : list event :=
  match e with
  | HTTPError code reason =>
      [Print ("[PROXY ERROR] HTTP " ++ Str.of_Z code ++ ": " ++ reason);
       SendError code reason]
  | Exception type_name message =>
      [Print ("[PROXY ERROR] " ++ type_name ++ ": " ++ message);
       SendError 500 ("Proxy error: " ++ message)]
  end.

(** A header block as [send_header] calls. *)
Definition header_events (hs : header_list) : list event :=
  map (fun '(k, v) => SendHeader k v) hs.

(** The events of a relayed response up to the end of its header block. *)
Definition relay_head (response : HTTPResponse) (rest : list event)
  : list event :=
  (SendResponse (status response)
   :: header_events (relayed_headers (resp_headers response))
   ++ header_events cors_headers ++ EndHeaders :: rest)%list.

(** ** Removing a substring *)

(** [Removed pat s r]: [r] is [s] with every occurrence of [pat] taken
    out, reading [s] from the left; where an occurrence starts it goes as
    a whole, and any other character stays. *)
Inductive Removed (pat : string) : string -> string -> Prop :=
| Removed_end : Removed pat "" ""
| Removed_keep (a : ascii) (s r : string) :
    Str.startswith (String a s) pat = false ->
    Removed pat s r ->
    Removed pat (String a s) (String a r)
| Removed_hit (s r : string) :
    Removed pat s r ->
    Removed pat (pat ++ s) r.

(** ** Cookies *)

(** A cookie attribute with the separator written before it: [true] for a
    semicolon and a space, [false] for a bare semicolon. *)
Definition attribute : Type := bool * string.

Definition render_attribute (a : attribute) : string :=
  (if fst a then "; " else ";") ++ snd a.

Definition render_attributes (attrs : list attribute) : string :=
  fold_right (fun a rest => render_attribute a ++ rest) "" attrs.

(** A [Set-Cookie] value: the [name=value] pair, then the attributes. *)
Definition render_cookie (pair : string) (attrs : list attribute) : string :=
  pair ++ render_attributes attrs.

Definition is_secure (a : attribute) : bool := (snd a =? "Secure")%string.

(** An attribute holds no semicolon, does not begin with a space, and
    begins with [Secure] only when it is [Secure]. *)
Definition attribute_ok (a : attribute) : Prop :=
  Str.contains ";" (snd a) = false /\
  Str.startswith (snd a) " " = false /\
  (Str.startswith (snd a) "Secure" = true -> snd a = "Secure").

Definition cookie_ok (pair : string) (attrs : list attribute) : Prop :=
  Str.contains ";" pair = false /\ Forall attribute_ok attrs.

(** The text after an attribute is empty or opens the next attribute. *)
Definition boundary (rest : string) : Prop :=
  rest = "" \/ Str.startswith rest ";" = true.

(** ** Deleting characters *)

(** [Subseq r s]: [r] is [s] with some characters left out; none is added,
    changed or moved. *)
Inductive Subseq : string -> string -> Prop :=
| Subseq_end : Subseq "" ""
| Subseq_keep (a : ascii) (r s : string) :
    Subseq r s -> Subseq (String a r) (String a s)
| Subseq_drop (a : ascii) (r s : string) :
    Subseq r s -> Subseq r (String a s).

(** The status [send_error] is called with for an exception caught by
    [proxy_request]: the upstream's code for an [HTTPError], 500 for any
    other. *)
Definition error_status (e : exn) : Z :=
  match e with
  | HTTPError code _ => code
  | Exception _ _ => 500
  end.

(** * Properties *)

(** ** Strings *)

Lemma startswith_app (p r : string) : Str.startswith (p ++ r) p = true.
Proof.
  induction p as [|a p IH]; simpl; [reflexivity|].
  now rewrite Ascii.eqb_refl, IH.
Qed.

Lemma startswith_inv (s p : string) :
  Str.startswith s p = true -> exists r, s = p ++ r.
Proof.
  revert s; induction p as [|a p IH]; intros s H; simpl in *.
  - now exists s.
  - destruct s as [|b s]; [discriminate|].
    apply andb_true_iff in H as [Hab Hs].
    apply Ascii.eqb_eq in Hab; subst b.
    destruct (IH _ Hs) as [r ->]. now exists r.
Qed.

Lemma startswith_iff (s p : string) :
  Str.startswith s p = true <-> exists r, s = p ++ r.
Proof.
  split; [apply startswith_inv|].
  intros [r ->]; apply startswith_app.
Qed.

(** The test written out in [do_GET], [do_POST] and [log_message] is the
    eligibility predicate. *)
Lemma prefix_test_eligible (p : string) :
  Str.startswith p "/spa-api" || Str.startswith p "/spwg-api"
  || Str.startswith p "/theme/" = forward_eligible p.
Proof.
  unfold forward_eligible, forward_prefixes, existsb.
  now rewrite orb_false_r, orb_assoc.
Qed.

Lemma forward_eligible_iff (p : string) :
  forward_eligible p = true <->
  exists prefix rest, In prefix forward_prefixes /\ p = prefix ++ rest.
Proof.
  unfold forward_eligible. rewrite existsb_exists. split.
  - intros (q & Hq & Hs). apply startswith_inv in Hs as [r ->]. eauto.
  - intros (q & r & Hq & ->). exists q. split; [assumption|].
    apply startswith_app.
Qed.

(** ** Unfolding the methods *)

Lemma do_GET_forward lib fs net self :
  forward_eligible (path self) = true ->
  do_GET lib fs net self = proxy_request lib net GET self.
Proof.
  intros H. unfold do_GET, bind, get_self.
  rewrite prefix_test_eligible, H.
  now destruct (proxy_request lib net GET self) as [[r s] t].
Qed.

Lemma do_POST_forward lib net self :
  forward_eligible (path self) = true ->
  do_POST lib net self = proxy_request lib net POST self.
Proof.
  intros H. unfold do_POST, bind, get_self.
  rewrite prefix_test_eligible, H.
  now destruct (proxy_request lib net POST self) as [[r s] t].
Qed.

Lemma do_POST_local lib net self :
  forward_eligible (path self) = false ->
  do_POST lib net self
  = (Ok tt, self, [SendError 405 "Method Not Allowed"]).
Proof.
  intros H. unfold do_POST, bind, get_self.
  now rewrite prefix_test_eligible, H.
Qed.

(** What [do_GET] does outside the forward prefixes, branch by branch. *)
Lemma do_GET_local lib fs net self :
  forward_eligible (path self) = false ->
  do_GET lib fs net self =
  match urlparse_path lib (path self) with
  | Raise e => (Raise e, self, [])
  | Ok p =>
      if negb (Str.contains "." (last_segment p)) && negb (p =? "/")%string
      then match directory_check fs p with
           | Ok true => (Ok tt, self, [SuperDoGET (path self)])
           | _ => (Ok tt, with_path self "/index.html",
                   [SuperDoGET "/index.html"])
           end
      else (Ok tt, self, [SuperDoGET (path self)])
  end.
Proof.
  intros H. unfold do_GET, bind, get_self.
  rewrite prefix_test_eligible, H. unfold lift at 1.
  destruct (urlparse_path lib (path self)) as [p|e]; [|reflexivity].
  unfold last_segment, directory_check.
  destruct (negb _ && negb _); [|reflexivity].
  unfold try_except, bind, lift.
  destruct (getcwd fs) as [cwd|e]; [|reflexivity].
  destruct (isdir fs _) as [[|]|e]; reflexivity.
Qed.

(** The first event of a computation survives what follows it. *)
Lemma trace_bind_emit {B} (e : event) (k : unit -> M B) self :
  exists t, trace (bind (emit e) k self) = e :: t.
Proof.
  unfold bind, emit. destruct (k tt self) as [[r s] t]. simpl. eauto.
Qed.

Lemma trace_bind_get_self {B} (k : Handler -> M B) self :
  trace (bind get_self k self) = trace (k self self).
Proof.
  unfold bind, get_self. now destruct (k self self) as [[r s] t].
Qed.

Lemma trace_try_except_head {A} (body : M A) handler self e t :
  trace (body self) = e :: t ->
  exists t', trace (try_except body handler self) = e :: t'.
Proof.
  unfold try_except. destruct (body self) as [[[a|x] s1] t1]; simpl.
  - intros ->. eauto.
  - intros ->. destruct (handler x s1) as [[r s2] t2]. simpl. eauto.
Qed.

(** [proxy_request] announces itself before anything else. *)
Lemma proxy_request_announces lib net m self :
  exists t,
    trace (proxy_request lib net m self)
    = Print ("[PROXY] " ++ method_name m ++ " " ++ path self ++ " -> "
             ++ PROXY_HOST ++ path self) :: t.
Proof.
  unfold proxy_request.
  match goal with
  | |- context [try_except ?b ?h] =>
      assert (exists t,
                 trace (b self)
                 = Print ("[PROXY] " ++ method_name m ++ " " ++ path self
                          ++ " -> " ++ PROXY_HOST ++ path self) :: t)
        as [t Ht]
  end.
  { rewrite trace_bind_get_self. unfold print. apply trace_bind_emit. }
  exact (trace_try_except_head _ _ _ _ _ Ht).
Qed.

(** The header loop of [proxy_request] sends the relayed headers. *)
Lemma header_loop (hs : header_list) self :
  for_each hs
    (fun '(header, value) =>
       if negb (Str.mem (Str.lower header)
                        ["transfer-encoding"; "connection"])
       then
         let value :=
           if (Str.lower header =? "set-cookie")%string
           then Str.replace (Str.replace value "; Secure" "") ";Secure" ""
           else value in
         send_header header value
       else ret tt) self
  = (Ok tt, self, header_events (relayed_headers hs)).
Proof.
  cbv zeta. revert self.
  induction hs as [|[h v] hs IH]; intros self; [reflexivity|].
  cbn [for_each]. unfold bind at 1.
  unfold relayed_headers, header_events. cbn [filter].
  fold deny_list.
  destruct (negb (Str.mem (Str.lower h) deny_list));
    cbn [send_header emit ret]; rewrite IH; reflexivity.
Qed.

(** Closes a branch of [proxy_request] that has reached [urlopen]. *)
Ltac relay_branch HL :=
  let response := fresh "response" in
  let body := fresh "body" in
  let e := fresh "e" in
  cbv beta iota;
  match goal with
  | |- context [urlopen ?net ?req] =>
      destruct (urlopen net req) as [response|e];
      [ rewrite HL; destruct (read response) as [body|e];
        [ reflexivity
        | destruct e; cbn [app]; rewrite <- ?app_assoc; reflexivity ]
      | destruct e; reflexivity ]
  end.

(** [proxy_request], stage by stage. *)
Lemma proxy_request_cases lib net m self :
  proxy_request lib net m self =
  match outbound lib m self with
  | Raise e => (Ok tt, self, announcement m self :: error_events e)
  | Ok (req, self') =>
      match urlopen net req with
      | Raise e =>
          (Ok tt, self',
           announcement m self :: Urlopen req :: error_events e)
      | Ok response =>
          match read response with
          | Ok body =>
              (Ok tt, self',
               announcement m self :: Urlopen req
               :: relay_head response [WfileWrite body])
          | Raise e =>
              (Ok tt, self',
               announcement m self :: Urlopen req
               :: relay_head response (error_events e))
          end
      end
  end.
Proof.
  pose proof header_loop as HL.
  unfold proxy_request, outbound, declared_length, outbound_headers.
  cbv beta iota zeta delta
    [try_except bind get_self print emit lift urlopen_call ret rfile_read
     send_response send_header end_headers wfile_write send_error] in HL |- *.
  destruct (headers_get (headers self) "Cookie") as [c|]; cbn [app];
    destruct m; try relay_branch HL.
  - destruct (headers_get (headers self) "Content-Length") as [v|].
    + destruct (int lib v) as [n|e]; [|destruct e; reflexivity].
      destruct (n >? 0); relay_branch HL.
    + cbn [Z.gtb Z.compare]. relay_branch HL.
  - destruct (headers_get (headers self) "Content-Length") as [v|].
    + destruct (int lib v) as [n|e]; [|destruct e; reflexivity].
      destruct (n >? 0); relay_branch HL.
    + cbn [Z.gtb Z.compare]. relay_branch HL.
Qed.



(** A request outside the forward prefixes is not handed to
    [proxy_request]. *)
Lemma do_GET_local_not_forwarded lib fs net self :
  forward_eligible (path self) = false ->
  do_GET lib fs net self <> proxy_request lib net GET self.
Proof.
  intros H E. apply (f_equal trace) in E.
  destruct (proxy_request_announces lib net GET self) as [t Ht].
  rewrite Ht, (do_GET_local lib fs net self H) in E.
  destruct (urlparse_path lib (path self)) as [p|e]; [|discriminate].
  destruct (negb _ && negb _); [|discriminate].
  destruct (directory_check fs p) as [[|]|e]; discriminate.
Qed.

Lemma do_POST_local_not_forwarded lib net self :
  forward_eligible (path self) = false ->
  do_POST lib net self <> proxy_request lib net POST self.
Proof.
  intros H E. apply (f_equal trace) in E.
  destruct (proxy_request_announces lib net POST self) as [t Ht].
  rewrite Ht, (do_POST_local lib net self H) in E. discriminate.
Qed.


Lemma forwards_GET_iff lib fs net self :
  forwards lib fs net GET self <-> forward_eligible (path self) = true.
Proof.
  unfold forwards, handle. split.
  - intros E. destruct (forward_eligible (path self)) eqn:H; [reflexivity|].
    now apply (do_GET_local_not_forwarded lib fs net) in H.
  - apply do_GET_forward.
Qed.

Lemma forwards_POST_iff lib fs net self :
  forwards lib fs net POST self <-> forward_eligible (path self) = true.
Proof.
  unfold forwards, handle. split.
  - intros E. destruct (forward_eligible (path self)) eqn:H; [reflexivity|].
    now apply (do_POST_local_not_forwarded lib net) in H.
  - apply do_POST_forward.
Qed.

(** ** The final path segment *)

Lemma split_no_separator (seg : string) :
  Str.contains "/" seg = false -> Str.split seg "/" = [seg].
Proof.
  induction seg as [|a seg IH]; simpl; [reflexivity|].
  intros H. apply orb_false_iff in H as [Ha Hs].
  now rewrite Ha, (IH Hs).
Qed.

Lemma split_last_piece (dir seg : string) :
  Str.contains "/" seg = false ->
  exists first others,
    Str.split (dir ++ "/" ++ seg) "/" = (first :: others ++ [seg])%list.
Proof.
  intros H. change ("/" ++ seg) with (String "/" seg).
  induction dir as [|a dir (first & others & IH)].
  - simpl. rewrite (split_no_separator _ H). now exists "", [].
  - cbn [append Str.split]. rewrite IH.
    destruct (Ascii.eqb a "/").
    + now exists "", (first :: others).
    + now exists (String a first), others.
Qed.

(** [last_segment] is the substring after the last slash. *)
Lemma last_segment_after_slash (dir seg : string) :
  Str.contains "/" seg = false -> last_segment (dir ++ "/" ++ seg) = seg.
Proof.
  intros H. destruct (split_last_piece dir seg H) as (first & others & E).
  unfold last_segment, Str.last. rewrite E.
  change (first :: others ++ [seg])%list
    with ((first :: others) ++ [seg])%list.
  apply last_last.
Qed.

Lemma last_segment_no_slash (seg : string) :
  Str.contains "/" seg = false -> last_segment seg = seg.
Proof.
  intros H. unfold last_segment. now rewrite (split_no_separator _ H).
Qed.

(** When the directory check raises, it is [os.getcwd] or [os.path.isdir]
    that raised. *)
Lemma directory_check_raises fs p e :
  directory_check fs p = Raise e <->
  getcwd fs = Raise e \/
  exists cwd, getcwd fs = Ok cwd /\
              isdir fs (os_path_join cwd (Str.lstrip p "/")) = Raise e.
Proof.
  unfold directory_check. destruct (getcwd fs) as [cwd|e'].
  - split; [intros H; right; eauto|].
    intros [H|(cwd' & [= <-] & H)]; [discriminate|exact H].
  - split; [intros [= ->]; now left|].
    intros [[= ->]|(cwd' & H & _)]; [reflexivity|discriminate].
Qed.

(** ** The reference [urlparse] on plain paths *)

Lemma cut_at_absent (c : ascii) (s : string) :
  Str.contains c s = false -> Reference.cut_at c s = s.
Proof.
  induction s as [|a s IH]; [reflexivity|].
  cbn [Str.contains Reference.cut_at]. intros H.
  apply orb_false_iff in H as [Ha Hs]. now rewrite Ha, IH.
Qed.

Lemma strip_params_absent (s : string) :
  Str.contains ";" s = false -> Reference.strip_params s = s.
Proof.
  induction s as [|a s IH]; [reflexivity|]. intros H.
  cbn [Reference.strip_params].
  destruct (Str.contains "/" (String a s)).
  - cbn [Str.contains] in H. apply orb_false_iff in H as [_ Hs].
    now rewrite IH.
  - now apply cut_at_absent.
Qed.

(** A path without query, fragment or parameters is its own URL path. *)
Lemma origin_form_path_plain (p : string) :
  Str.contains "?" p = false ->
  Str.contains "#" p = false ->
  Str.contains ";" p = false ->
  Reference.origin_form_path p = p.
Proof.
  intros Hq Hf Hp. unfold Reference.origin_form_path.
  now rewrite (cut_at_absent "#"), (cut_at_absent "?"), strip_params_absent.
Qed.

(** ** Routing *)

(** Past the extension test and the root test, [do_GET] serves the
    fallback unless the directory check answers [True]. *)
Lemma falls_back_unless_directory lib fs net self p :
  forward_eligible (path self) = false ->
  urlparse_path lib (path self) = Ok p ->
  Str.contains "." (last_segment p) = false ->
  p <> "/" ->
  directory_check fs p <> Ok true ->
  serves_fallback lib fs net self.
Proof.
  intros Hfwd Hparse Hdot Hroot Hdir. unfold serves_fallback.
  rewrite (do_GET_local lib fs net self Hfwd), Hparse, Hdot.
  apply String.eqb_neq in Hroot. rewrite Hroot. cbn [negb andb].
  destruct (directory_check fs p) as [[|]|e]; [congruence|reflexivity..].
Qed.

(** C1: a GET or POST whose path starts with a configured forward prefix is
    handed to [proxy_request], whatever the local filesystem holds; the
    filesystem does not occur in what is run. *)
Theorem forward_prefix_is_forwarded lib fs net self prefix rest :
  In prefix forward_prefixes ->
  path self = prefix ++ rest ->
  do_GET lib fs net self = proxy_request lib net GET self /\
  do_POST lib net self = proxy_request lib net POST self /\
  forall fs', handle lib fs' net GET self = handle lib fs net GET self
           /\ handle lib fs' net POST self = handle lib fs net POST self.
Proof.
  intros Hin Hp.
  assert (H : forward_eligible (path self) = true)
    by (apply forward_eligible_iff; eauto).
  split; [|split].
  - now apply do_GET_forward.
  - now apply do_POST_forward.
  - intros fs'. cbn [handle]. split; [|reflexivity].
    now rewrite !do_GET_forward.
Qed.

Lemma forward_prefix_is_forwarded_witness :
  In "/spa-api" forward_prefixes /\
  path (Reference.request "/spa-api/ping") = "/spa-api" ++ "/ping" /\
  do_GET Reference.library Reference.broken_filesystem
         (Reference.upstream (Raise (HTTPError 404 "Not Found")))
         (Reference.request "/spa-api/ping")
  = proxy_request Reference.library
      (Reference.upstream (Raise (HTTPError 404 "Not Found"))) GET
      (Reference.request "/spa-api/ping").
Proof.
  split; [simpl; auto|]. split; [reflexivity|].
  apply (forward_prefix_is_forwarded
           Reference.library Reference.broken_filesystem
           (Reference.upstream (Raise (HTTPError 404 "Not Found")))
           (Reference.request "/spa-api/ping") "/spa-api" "/ping");
    [simpl; auto | reflexivity].
Defined.




(** On request paths that carry no query, fragment or parameters the URL
    path is the request path, and the tests read off either agree. *)
Lemma spa_fallback_on_plain_request_path fs net self :
  Str.contains "?" (path self) = false ->
  Str.contains "#" (path self) = false ->
  Str.contains ";" (path self) = false ->
  forward_eligible (path self) = false ->
  Str.contains "." (last_segment (path self)) = false ->
  path self <> "/" ->
  directory_check fs (path self) = Ok false ->
  serves_fallback Reference.library fs net self.
Proof.
  intros Hq Hf Hp Hfwd Hdot Hroot Hdir.
  apply (falls_back_unless_directory _ _ _ _ (path self)); try assumption;
    [|rewrite Hdir; discriminate].
  cbn [Reference.library urlparse_path].
  now rewrite origin_form_path_plain.
Qed.

(** C8: when a GET outside the forward prefixes reaches the directory check
    and the check raises, [do_GET] returns normally with [self.path] set to
    [/index.html] and the local file handler run on it. *)
Theorem directory_check_error_falls_back lib fs net self p e :
  forward_eligible (path self) = false ->
  urlparse_path lib (path self) = Ok p ->
  Str.contains "." (last_segment p) = false ->
  p <> "/" ->
  directory_check fs p = Raise e ->
  outcome (do_GET lib fs net self) = Ok tt /\
  serves_fallback lib fs net self.
Proof.
  intros Hfwd Hparse Hdot Hroot Hdir.
  assert (H : serves_fallback lib fs net self).
  { apply (falls_back_unless_directory lib fs net self p); try assumption.
    rewrite Hdir. discriminate. }
  split; [|exact H]. unfold serves_fallback in H. now rewrite H.
Qed.

Lemma directory_check_error_falls_back_witness :
  forward_eligible (path (Reference.request "/settings/profile")) = false /\
  urlparse_path Reference.library
    (path (Reference.request "/settings/profile"))
  = Ok "/settings/profile" /\
  Str.contains "." (last_segment "/settings/profile") = false /\
  "/settings/profile" <> "/" /\
  directory_check Reference.broken_filesystem "/settings/profile"
  = Raise (Exception "FileNotFoundError"
             "[Errno 2] No such file or directory") /\
  serves_fallback Reference.library Reference.broken_filesystem
    (Reference.upstream (Raise (HTTPError 404 "Not Found")))
    (Reference.request "/settings/profile").
Proof.
  repeat (split; [first [reflexivity | discriminate]|]).
  apply (directory_check_error_falls_back
           Reference.library Reference.broken_filesystem
           (Reference.upstream (Raise (HTTPError 404 "Not Found")))
           (Reference.request "/settings/profile")
           "/settings/profile"
           (Exception "FileNotFoundError"
              "[Errno 2] No such file or directory"));
    first [reflexivity | discriminate].
Defined.




(** C10: forwarding is decided by a plain string-prefix test on the raw
    request path, query string included: [/spa-api] and [/spwg-api] need
    no slash after them, [/theme/] carries its own.  So a GET for
    [/spa-apifoo] is forwarded, and a GET for [/theme] is not: it goes to
    the local file handler, as a file or as the SPA fallback. *)
Theorem forward_test_is_string_prefix :
  (forall lib fs net self,
      forwards lib fs net GET self <->
      exists rest,
        path self = "/spa-api" ++ rest \/ path self = "/spwg-api" ++ rest
        \/ path self = "/theme/" ++ rest) /\
  (forall lib fs net self,
      forwards lib fs net POST self <->
      exists rest,
        path self = "/spa-api" ++ rest \/ path self = "/spwg-api" ++ rest
        \/ path self = "/theme/" ++ rest) /\
  (forall lib fs net self query,
      forwards lib fs net GET (with_path self ("/spa-api?" ++ query))) /\
  (forall lib fs net self,
      forwards lib fs net GET (with_path self "/spa-apifoo")) /\
  (forall lib fs net self,
      ~ forwards lib fs net GET (with_path self "/theme")) /\
  (forall fs net self,
      serves_file Reference.library fs net (with_path self "/theme")
      \/ serves_fallback Reference.library fs net (with_path self "/theme")).
Proof.
  assert (Hshape : forall p,
    forward_eligible p = true <->
    exists rest,
      p = "/spa-api" ++ rest \/ p = "/spwg-api" ++ rest
      \/ p = "/theme/" ++ rest).
  { intros p. rewrite forward_eligible_iff. split.
    - intros (q & rest & [ <- | [ <- | [ <- | [] ] ] ] & ->); exists rest; auto.
    - intros (rest & [ -> | [ -> | -> ] ]);
        [exists "/spa-api"|exists "/spwg-api"|exists "/theme/"];
        exists rest; simpl; auto. }
  repeat split.
  - intros H. now apply Hshape, (forwards_GET_iff lib fs net).
  - intros H. now apply (forwards_GET_iff lib fs net), Hshape.
  - intros H. now apply Hshape, (forwards_POST_iff lib fs net).
  - intros H. now apply (forwards_POST_iff lib fs net), Hshape.
  - intros lib fs net self query. now apply forwards_GET_iff.
  - intros lib fs net self. now apply forwards_GET_iff.
  - intros lib fs net self H. now apply forwards_GET_iff in H.
  - intros fs net self. unfold serves_file, serves_fallback.
    rewrite do_GET_local by reflexivity.
    cbn -[directory_check].
    destruct (directory_check fs "/theme") as [[|]|e]; auto.
Qed.

(** ** [replace] *)

Lemma replace_from_skip (k : nat) (s old new : string) :
  Str.replace_from k s old new = Str.replace_from 0 (Str.drop k s) old new.
Proof.
  revert k; induction s as [|a s IH]; intros [|k]; try reflexivity.
  cbn [Str.replace_from Str.drop]. apply IH.
Qed.

Lemma drop_app_length (p r : string) :
  Str.drop (String.length p) (p ++ r) = r.
Proof. induction p as [|a p IH]; [now destruct r|exact IH]. Qed.

Lemma replace_nil (old new : string) :
  old <> "" -> Str.replace "" old new = "".
Proof. now destruct old. Qed.

Lemma replace_keep (a : ascii) (s old new : string) :
  Str.startswith (String a s) old = false ->
  Str.replace (String a s) old new = String a (Str.replace s old new).
Proof.
  intros H. destruct old as [|b old]; [discriminate|].
  unfold Str.replace. cbn [Str.replace_from]. now rewrite H.
Qed.

Lemma replace_hit (s old new : string) :
  old <> "" ->
  Str.replace (old ++ s) old new = new ++ Str.replace s old new.
Proof.
  destruct old as [|b old]; [congruence|]. intros _.
  unfold Str.replace. cbn [append Str.replace_from].
  change (String b (old ++ s)) with (String b old ++ s).
  rewrite startswith_app. cbn [String.length Nat.pred].
  now rewrite replace_from_skip, drop_app_length.
Qed.

Lemma length_app (a b : string) :
  String.length (a ++ b) = (String.length a + String.length b)%nat.
Proof. induction a as [|c a IH]; simpl; [reflexivity|now rewrite IH]. Qed.

(** [replace] with an empty replacement removes every occurrence. *)
Lemma replace_removes (pat s : string) :
  pat <> "" -> Removed pat s (Str.replace s pat "").
Proof.
  intros Hpat.
  remember (String.length s) as n eqn:Hn.
  revert s Hn. induction n as [n IH] using lt_wf_ind. intros s Hn.
  destruct s as [|a s].
  - rewrite replace_nil by assumption. constructor.
  - destruct (Str.startswith (String a s) pat) eqn:H.
    + apply startswith_inv in H as [rest E]. rewrite E.
      rewrite replace_hit by assumption. cbn [append].
      apply Removed_hit, (IH (String.length rest)); [|reflexivity].
      subst n. rewrite E, length_app.
      destruct pat; [congruence|simpl; lia].
    + rewrite replace_keep by assumption.
      apply Removed_keep; [assumption|].
      apply (IH (String.length s)); [subst n; simpl; lia|reflexivity].
Qed.

(** [Removed] determines its result. *)
Lemma Removed_functional (pat s r : string) :
  pat <> "" -> Removed pat s r -> r = Str.replace s pat "".
Proof.
  intros Hpat H. induction H as [|a s r Hs _ IH|s r _ IH].
  - now rewrite replace_nil.
  - now rewrite replace_keep, IH.
  - now rewrite replace_hit, IH.
Qed.

(** ** Cookies under [replace] *)

Lemma render_attributes_boundary (attrs : list attribute) :
  boundary (render_attributes attrs).
Proof.
  destruct attrs as [|[[|] a] attrs]; [now left| |]; now right.
Qed.

(** A pattern without semicolon that matches across a boundary matches
    before it. *)
Lemma startswith_before_boundary (a rest p : string) :
  Str.contains ";" p = false ->
  boundary rest ->
  Str.startswith (a ++ rest) p = true ->
  Str.startswith a p = true.
Proof.
  intros Hp Hrest. revert a. induction p as [|c p IH]; intros a H.
  - reflexivity.
  - cbn [Str.contains] in Hp. apply orb_false_iff in Hp as [Hc Hp].
    destruct a as [|d a].
    + cbn [append] in H. destruct Hrest as [->|Hsemi]; [discriminate|].
      destruct rest as [|x rest]; [discriminate|].
      cbn [Str.startswith] in Hsemi, H. rewrite andb_true_r in Hsemi.
      apply andb_true_iff in H as [Hcx _].
      apply Ascii.eqb_eq in Hsemi, Hcx. subst.
      now rewrite Ascii.eqb_refl in Hc.
    + cbn [append Str.startswith] in H |- *.
      apply andb_true_iff in H as [Hcd H].
      rewrite Hcd. now apply IH.
Qed.

(** A scan for a pattern that opens with a semicolon passes over text
    without one. *)
Lemma replace_through (x rest pat new : string) :
  Str.contains ";" x = false ->
  Str.replace (x ++ rest) (String ";" pat) new
  = x ++ Str.replace rest (String ";" pat) new.
Proof.
  induction x as [|a x IH]; intros H; [reflexivity|].
  cbn [Str.contains] in H. apply orb_false_iff in H as [Ha Hx].
  cbn [append]. rewrite replace_keep.
  - now rewrite IH.
  - cbn [Str.startswith]. rewrite Ascii.eqb_sym in Ha. now rewrite Ha.
Qed.

Lemma render_attributes_cons (a : attribute) (attrs : list attribute) :
  render_attributes (a :: attrs)
  = render_attribute a ++ render_attributes attrs.
Proof. reflexivity. Qed.

(** One pass of [replace] takes out the [Secure] attributes written with
    the separator of its pattern and keeps the rest. *)
Lemma replace_attributes (spaced : bool) (attrs : list attribute) :
  Forall attribute_ok attrs ->
  Str.replace (render_attributes attrs)
              ((if spaced then "; " else ";") ++ "Secure") ""
  = render_attributes
      (filter (fun a => negb (Bool.eqb (fst a) spaced && is_secure a))
              attrs).
Proof.
  induction 1 as [|[b a] attrs (Hsemi & Hspace & Hsec) _ IH].
  - now destruct spaced.
  - cbn [filter fst]. change (is_secure (b, a)) with (a =? "Secure")%string.
    cbn [snd] in Hsemi, Hspace, Hsec.
    rewrite render_attributes_cons.
    pose proof (render_attributes_boundary attrs) as Hb.
    set (R := render_attributes attrs) in *.
    destruct (String.eqb_spec a "Secure") as [->|Hne].
    + destruct b, spaced; cbn [Bool.eqb andb negb];
        rewrite ?render_attributes_cons; rewrite <- IH.
      * change (render_attribute (true, "Secure")) with ("; " ++ "Secure").
        now rewrite replace_hit by discriminate.
      * change (render_attribute (true, "Secure") ++ R)
          with (String ";" (" Secure" ++ R)).
        change (";" ++ "Secure") with (String ";" "Secure").
        rewrite replace_keep by reflexivity.
        now rewrite (replace_through " Secure") by reflexivity.
      * change (render_attribute (false, "Secure") ++ R)
          with (String ";" ("Secure" ++ R)).
        change ("; " ++ "Secure") with (String ";" " Secure").
        rewrite replace_keep by reflexivity.
        now rewrite (replace_through "Secure") by reflexivity.
      * change (render_attribute (false, "Secure")) with (";" ++ "Secure").
        now rewrite replace_hit by discriminate.
    + rewrite andb_false_r. cbn [negb].
      rewrite render_attributes_cons, <- IH.
      assert (Hno : Str.startswith (a ++ R) "Secure" = false).
      { destruct (Str.startswith (a ++ R) "Secure") eqn:E; [|reflexivity].
        apply startswith_before_boundary in E; [|reflexivity|assumption].
        now apply Hsec in E. }
      assert (Hno' : Str.startswith (a ++ R) " Secure" = false).
      { destruct (Str.startswith (a ++ R) " Secure") eqn:E; [|reflexivity].
        apply startswith_before_boundary in E; [|reflexivity|assumption].
        destruct a as [|c a]; [discriminate|].
        cbn [Str.startswith] in E, Hspace.
        rewrite andb_true_r in Hspace. now rewrite Hspace in E. }
      destruct b.
      * change (render_attribute (true, a) ++ R)
          with (String ";" (String " " a ++ R)).
        change (render_attribute (true, a)) with (String ";" (String " " a)).
        destruct spaced.
        -- change ("; " ++ "Secure") with (String ";" " Secure").
           rewrite replace_keep.
           ++ now rewrite (replace_through (String " " a)).
           ++ cbn [Str.startswith append]. rewrite !Ascii.eqb_refl.
              exact Hno.
        -- change (";" ++ "Secure") with (String ";" "Secure").
           rewrite replace_keep by reflexivity.
           now rewrite (replace_through (String " " a)).
      * change (render_attribute (false, a) ++ R)
          with (String ";" (a ++ R)).
        change (render_attribute (false, a)) with (String ";" a).
        destruct spaced.
        -- change ("; " ++ "Secure") with (String ";" " Secure").
           rewrite replace_keep.
           ++ now rewrite (replace_through a).
           ++ cbn [Str.startswith]. rewrite Ascii.eqb_refl. exact Hno'.
        -- change (";" ++ "Secure") with (String ";" "Secure").
           rewrite replace_keep.
           ++ now rewrite (replace_through a).
           ++ cbn [Str.startswith]. rewrite Ascii.eqb_refl. exact Hno.
Qed.

(** The rewrite takes every [Secure] attribute out of a cookie and keeps
    everything else. *)
Lemma strip_secure_cookie (pair : string) (attrs : list attribute) :
  cookie_ok pair attrs ->
  strip_secure (render_cookie pair attrs)
  = render_cookie pair (filter (fun a => negb (is_secure a)) attrs).
Proof.
  intros [Hpair Hattrs]. unfold strip_secure, render_cookie.
  rewrite (replace_through pair _ " Secure") by assumption.
  rewrite (replace_attributes true) by assumption.
  rewrite (replace_through pair _ "Secure") by assumption.
  rewrite (replace_attributes false).
  - f_equal. f_equal. clear. induction attrs as [|[b a] attrs IH];
      [reflexivity|].
    cbn [filter fst snd]. destruct b, (is_secure (_, a)) eqn:E;
      cbn [Bool.eqb andb negb filter fst]; rewrite ?E;
      cbn [Bool.eqb andb negb]; now rewrite IH.
  - apply Forall_forall. intros a Ha. apply filter_In in Ha as [Ha _].
    now apply (proj1 (Forall_forall _ _) Hattrs).
Qed.

(** Removal never lengthens, and shortens when there is an occurrence. *)
Lemma Removed_length (pat s r : string) :
  pat <> "" ->
  Removed pat s r ->
  (String.length r <= String.length s)%nat /\
  (Str.occurs pat s = true -> (String.length r < String.length s)%nat).
Proof.
  intros Hpat H. induction H as [|a s r Hs _ [IHle IHlt]|s r _ [IHle IHlt]].
  - split; [reflexivity|]. destruct pat; [congruence|discriminate].
  - cbn [String.length Str.occurs]. rewrite Hs. cbn [orb].
    split; [lia|]. intros Ho. specialize (IHlt Ho). lia.
  - rewrite length_app.
    assert (0 < String.length pat)%nat
      by (destruct pat; [congruence|simpl; lia]).
    split; [lia|]. intros _. lia.
Qed.

Lemma replace_without_occurrence (pat s new : string) :
  pat <> "" -> Str.occurs pat s = false -> Str.replace s pat new = s.
Proof.
  intros Hpat. induction s as [|a s IH]; intros H.
  - now apply replace_nil.
  - cbn [Str.occurs] in H. apply orb_false_iff in H as [Hs Ho].
    now rewrite replace_keep, IH.
Qed.

(** A value the rewrite leaves alone holds neither substring. *)
Lemma strip_secure_fixed (v : string) :
  strip_secure v = v ->
  Str.occurs "; Secure" v = false /\ Str.occurs ";Secure" v = false.
Proof.
  unfold strip_secure. intros Hfix.
  pose proof (Removed_length "; Secure" v _ ltac:(discriminate)
                (replace_removes "; Secure" v ltac:(discriminate)))
    as [Hle1 Hlt1].
  pose proof (Removed_length ";Secure" (Str.replace v "; Secure" "") _
                ltac:(discriminate)
                (replace_removes ";Secure" _ ltac:(discriminate)))
    as [Hle2 _].
  rewrite Hfix in Hle2.
  assert (H1 : Str.occurs "; Secure" v = false).
  { destruct (Str.occurs "; Secure" v); [|reflexivity].
    specialize (Hlt1 eq_refl). lia. }
  split; [exact H1|].
  rewrite (replace_without_occurrence "; Secure" v "") in Hfix
    by (discriminate || assumption).
  pose proof (Removed_length ";Secure" v _ ltac:(discriminate)
                (replace_removes ";Secure" v ltac:(discriminate)))
    as [_ Hlt2].
  rewrite Hfix in Hlt2.
  destruct (Str.occurs ";Secure" v); [|reflexivity].
  specialize (Hlt2 eq_refl). lia.
Qed.

(** A cookie relayed without its [Secure] attributes holds neither
    substring. *)
Lemma relayed_cookie_is_clean (pair : string) (attrs : list attribute) :
  cookie_ok pair attrs ->
  Str.occurs "; Secure"
    (render_cookie pair (filter (fun a => negb (is_secure a)) attrs))
  = false /\
  Str.occurs ";Secure"
    (render_cookie pair (filter (fun a => negb (is_secure a)) attrs))
  = false.
Proof.
  intros [Hpair Hattrs]. apply strip_secure_fixed.
  rewrite strip_secure_cookie.
  - f_equal. clear. induction attrs as [|a attrs IH]; [reflexivity|].
    cbn [filter]. destruct (negb (is_secure a)) eqn:E; [|exact IH].
    cbn [filter]. now rewrite E, IH.
  - split; [assumption|].
    apply Forall_forall. intros a Ha. apply filter_In in Ha as [Ha _].
    now apply (proj1 (Forall_forall _ _) Hattrs).
Qed.

(** ** Reading a response off a trace *)

Lemma response_headers_app (t1 t2 : list event) :
  response_headers (t1 ++ t2) = (response_headers t1 ++ response_headers t2)%list.
Proof.
  induction t1 as [|e t1 IH]; [reflexivity|].
  destruct e; cbn [app response_headers]; now rewrite IH.
Qed.

Lemma response_headers_header_events (hs : header_list) :
  response_headers (header_events hs) = hs.
Proof.
  induction hs as [|[k v] hs IH]; [reflexivity|].
  cbn [header_events map response_headers]. fold (header_events hs).
  now rewrite IH.
Qed.

Lemma response_body_app (t1 t2 : list event) :
  response_body (t1 ++ t2) = (response_body t1 ++ response_body t2)%list.
Proof.
  induction t1 as [|e t1 IH]; [reflexivity|].
  destruct e; cbn [app response_body]; rewrite IH;
    [..|now rewrite app_assoc| |]; reflexivity.
Qed.

Lemma response_body_header_events (hs : header_list) :
  response_body (header_events hs) = [].
Proof. induction hs as [|[k v] hs IH]; [reflexivity|exact IH]. Qed.

Lemma outbound_requests_app (t1 t2 : list event) :
  outbound_requests (t1 ++ t2)
  = (outbound_requests t1 ++ outbound_requests t2)%list.
Proof.
  induction t1 as [|e t1 IH]; [reflexivity|].
  destruct e; cbn [app outbound_requests]; now rewrite IH.
Qed.

Lemma outbound_requests_header_events (hs : header_list) :
  outbound_requests (header_events hs) = [].
Proof. induction hs as [|[k v] hs IH]; [reflexivity|exact IH]. Qed.

Lemma outbound_requests_error_events (e : exn) :
  outbound_requests (error_events e) = [].
Proof. now destruct e. Qed.

Lemma relay_head_headers response rest :
  response_headers (relay_head response rest)
  = (relayed_headers (resp_headers response) ++ cors_headers
     ++ response_headers rest)%list.
Proof.
  unfold relay_head. cbn [response_headers].
  rewrite !response_headers_app, !response_headers_header_events.
  reflexivity.
Qed.

Lemma relay_head_body response rest :
  response_body (relay_head response rest) = response_body rest.
Proof.
  unfold relay_head. cbn [response_body].
  now rewrite !response_body_app, !response_body_header_events.
Qed.

Lemma relay_head_requests response rest :
  outbound_requests (relay_head response rest) = outbound_requests rest.
Proof.
  unfold relay_head. cbn [outbound_requests].
  now rewrite !outbound_requests_app, !outbound_requests_header_events.
Qed.

(** The trace of a forwarding that went through. *)
Lemma proxy_request_success lib net m self req self' response body :
  outbound lib m self = Ok (req, self') ->
  urlopen net req = Ok response ->
  read response = Ok body ->
  proxy_request lib net m self
  = (Ok tt, self',
     announcement m self :: Urlopen req
     :: relay_head response [WfileWrite body]).
Proof.
  intros Hout Hopen Hread.
  now rewrite proxy_request_cases, Hout, Hopen, Hread.
Qed.

Lemma proxy_request_success_headers
  lib net m self req self' response body :
  outbound lib m self = Ok (req, self') ->
  urlopen net req = Ok response ->
  read response = Ok body ->
  response_headers (trace (proxy_request lib net m self))
  = (relayed_headers (resp_headers response) ++ cors_headers)%list.
Proof.
  intros Hout Hopen Hread.
  rewrite (proxy_request_success _ _ _ _ _ _ _ _ Hout Hopen Hread).
  cbn [trace snd announcement response_headers].
  rewrite relay_head_headers. cbn [response_headers].
  now rewrite app_nil_r.
Qed.

(** Membership in the relayed headers. *)
Lemma relayed_headers_In (hs : header_list) (h v : string) :
  In (h, v) hs ->
  Str.mem (Str.lower h) deny_list = false ->
  In (h, relay_value h v) (relayed_headers hs).
Proof.
  intros Hin Hdeny. unfold relayed_headers.
  apply (in_map (fun '(h, v) => (h, relay_value h v)) _ (h, v)).
  apply filter_In. split; [assumption|]. now rewrite Hdeny.
Qed.

Lemma relayed_headers_allowed (hs : header_list) (h v : string) :
  In (h, v) (relayed_headers hs) ->
  Str.mem (Str.lower h) deny_list = false.
Proof.
  unfold relayed_headers. intros Hin.
  apply in_map_iff in Hin as ([h0 v0] & [= <- _] & Hin).
  apply filter_In in Hin as [_ Hin].
  now apply negb_true_iff in Hin.
Qed.

Lemma mem_deny_list (name : string) :
  Str.mem name deny_list = false <->
  name <> "transfer-encoding" /\ name <> "connection".
Proof.
  unfold Str.mem, deny_list, existsb. rewrite orb_false_r, orb_false_iff.
  now rewrite !String.eqb_neq.
Qed.

(** ** Forwarding *)

(** C3: when a request is forwarded and the upstream answers, the caller
    reads the upstream status; the headers sent are the upstream headers
    in order, without those named Transfer-Encoding or Connection in any
    letter case, followed by the three CORS headers; a relayed header keeps
    its name, and its value unless it is a Set-Cookie; and the body written
    is the upstream body. *)
Theorem forwarded_response_relays_upstream
  lib net m self req self' response body :
  outbound lib m self = Ok (req, self') ->
  urlopen net req = Ok response ->
  read response = Ok body ->
  response_status (trace (proxy_request lib net m self))
  = Some (status response) /\
  response_headers (trace (proxy_request lib net m self))
  = (relayed_headers (resp_headers response) ++ cors_headers)%list /\
  (forall h v,
      In (h, v) (resp_headers response) ->
      Str.lower h <> "transfer-encoding" ->
      Str.lower h <> "connection" ->
      In (h, relay_value h v)
         (response_headers (trace (proxy_request lib net m self)))
      /\ (Str.lower h <> "set-cookie" -> relay_value h v = v)) /\
  (forall h v,
      In (h, v) (response_headers (trace (proxy_request lib net m self))) ->
      Str.lower h <> "transfer-encoding" /\ Str.lower h <> "connection") /\
  (forall c,
      In c cors_headers ->
      In c (response_headers (trace (proxy_request lib net m self)))) /\
  response_body (trace (proxy_request lib net m self)) = body.
Proof.
  intros Hout Hopen Hread.
  rewrite (proxy_request_success _ _ _ _ _ _ _ _ Hout Hopen Hread).
  cbn [trace snd announcement response_status response_headers
       response_body].
  rewrite relay_head_headers, relay_head_body.
  cbn [response_headers response_body]. rewrite !app_nil_r.
  split; [reflexivity|]. split; [reflexivity|].
  split; [|split; [|split; [|reflexivity]]].
  - intros h v Hin Hte Hconn. split.
    + apply in_or_app; left. apply relayed_headers_In; [assumption|].
      now apply mem_deny_list.
    + intros Hsc. unfold relay_value.
      apply String.eqb_neq in Hsc. now rewrite Hsc.
  - intros h v Hin. apply in_app_or in Hin as [Hin|Hin].
    + apply mem_deny_list.
      exact (relayed_headers_allowed _ h v Hin).
    + destruct Hin as [[= <- _]|[[= <- _]|[[= <- _]|[]]]];
        split; discriminate.
  - intros c Hc. apply in_or_app; now right.
Qed.

Lemma forwarded_response_relays_upstream_witness :
  outbound Reference.library GET (Reference.request "/spa-api/ping")
  = Ok (mkRequest "https://iwalton.com/spa-api/ping" None
          [("User-Agent", "Mozilla/5.0");
           ("Content-Type", "application/json")] GET,
        Reference.request "/spa-api/ping") /\
  response_status
    (trace (proxy_request Reference.library
              (Reference.upstream
                 (Ok (mkHTTPResponse 200
                        [("Content-Type", "application/json");
                         ("Transfer-Encoding", "chunked");
                         ("CONNECTION", "close")]
                        (Ok [x7b; x22; x6f; x6b; x22; x3a;
                             x74; x72; x75; x65; x7d]))))
              GET (Reference.request "/spa-api/ping")))
  = Some 200 /\
  response_headers
    (trace (proxy_request Reference.library
              (Reference.upstream
                 (Ok (mkHTTPResponse 200
                        [("Content-Type", "application/json");
                         ("Transfer-Encoding", "chunked");
                         ("CONNECTION", "close")]
                        (Ok [x7b; x22; x6f; x6b; x22; x3a;
                             x74; x72; x75; x65; x7d]))))
              GET (Reference.request "/spa-api/ping")))
  = ("Content-Type", "application/json") :: cors_headers /\
  response_body
    (trace (proxy_request Reference.library
              (Reference.upstream
                 (Ok (mkHTTPResponse 200
                        [("Content-Type", "application/json");
                         ("Transfer-Encoding", "chunked");
                         ("CONNECTION", "close")]
                        (Ok [x7b; x22; x6f; x6b; x22; x3a;
                             x74; x72; x75; x65; x7d]))))
              GET (Reference.request "/spa-api/ping")))
  = [x7b; x22; x6f; x6b; x22; x3a; x74; x72; x75; x65; x7d].
Proof.
  split; [reflexivity|].
  destruct (forwarded_response_relays_upstream
              Reference.library
              (Reference.upstream
                 (Ok (mkHTTPResponse 200
                        [("Content-Type", "application/json");
                         ("Transfer-Encoding", "chunked");
                         ("CONNECTION", "close")]
                        (Ok [x7b; x22; x6f; x6b; x22; x3a;
                             x74; x72; x75; x65; x7d]))))
              GET (Reference.request "/spa-api/ping")
              (mkRequest "https://iwalton.com/spa-api/ping" None
                 [("User-Agent", "Mozilla/5.0");
                  ("Content-Type", "application/json")] GET)
              (Reference.request "/spa-api/ping")
              (mkHTTPResponse 200
                 [("Content-Type", "application/json");
                  ("Transfer-Encoding", "chunked");
                  ("CONNECTION", "close")]
                 (Ok [x7b; x22; x6f; x6b; x22; x3a;
                      x74; x72; x75; x65; x7d]))
              [x7b; x22; x6f; x6b; x22; x3a; x74; x72; x75; x65; x7d]
              eq_refl eq_refl eq_refl)
    as (Hstatus & Hheaders & _ & _ & _ & Hbody).
  split; [exact Hstatus|]. split; [exact Hheaders|exact Hbody].
Defined.

(** C4: a relayed Set-Cookie header carries the upstream value with every
    occurrence of [; Secure] taken out and then every occurrence of
    [;Secure]; a cookie written as a pair and attributes loses exactly its
    [Secure] attributes and is relayed free of both substrings; and an
    upstream
    [Set-Cookie: session=abc; Secure; HttpOnly] reaches the caller as
    [Set-Cookie: session=abc; HttpOnly]. *)
Theorem set_cookie_secure_is_stripped
  lib net m self req self' response body :
  outbound lib m self = Ok (req, self') ->
  urlopen net req = Ok response ->
  read response = Ok body ->
  (forall h v,
      In (h, v) (resp_headers response) ->
      Str.lower h = "set-cookie" ->
      In (h, strip_secure v)
         (response_headers (trace (proxy_request lib net m self)))
      /\ exists mid,
          Removed "; Secure" v mid /\ Removed ";Secure" mid (strip_secure v)) /\
  (forall h pair attrs,
      In (h, render_cookie pair attrs) (resp_headers response) ->
      Str.lower h = "set-cookie" ->
      cookie_ok pair attrs ->
      In (h, render_cookie pair (filter (fun a => negb (is_secure a)) attrs))
         (response_headers (trace (proxy_request lib net m self)))
      /\ Str.occurs "; Secure"
           (render_cookie pair (filter (fun a => negb (is_secure a)) attrs))
         = false
      /\ Str.occurs ";Secure"
           (render_cookie pair (filter (fun a => negb (is_secure a)) attrs))
         = false) /\
  (resp_headers response
   = [("Set-Cookie", "session=abc; Secure; HttpOnly")] ->
   response_headers (trace (proxy_request lib net m self))
   = ("Set-Cookie", "session=abc; HttpOnly") :: cors_headers).
Proof.
  intros Hout Hopen Hread.
  pose proof (proxy_request_success_headers
                _ _ _ _ _ _ _ _ Hout Hopen Hread) as Hheaders.
  assert (Hcookie : forall h v,
             In (h, v) (resp_headers response) ->
             Str.lower h = "set-cookie" ->
             In (h, strip_secure v)
                (response_headers (trace (proxy_request lib net m self)))).
  { intros h v Hin Hname. rewrite Hheaders. apply in_or_app; left.
    replace (strip_secure v) with (relay_value h v)
      by (unfold relay_value; now rewrite Hname).
    apply relayed_headers_In; [assumption|].
    apply mem_deny_list. rewrite Hname. split; discriminate. }
  split; [|split].
  - intros h v Hin Hname. split; [now apply Hcookie|].
    exists (Str.replace v "; Secure" ""). split.
    + now apply replace_removes.
    + now apply replace_removes.
  - intros h pair attrs Hin Hname Hok.
    split; [|now apply relayed_cookie_is_clean].
    rewrite <- strip_secure_cookie by assumption. now apply Hcookie.
  - intros Hup. rewrite Hheaders, Hup. reflexivity.
Qed.

Lemma set_cookie_secure_is_stripped_witness :
  outbound Reference.library GET (Reference.request "/spa-api/login")
  = Ok (mkRequest "https://iwalton.com/spa-api/login" None
          [("User-Agent", "Mozilla/5.0");
           ("Content-Type", "application/json")] GET,
        Reference.request "/spa-api/login") /\
  response_headers
    (trace (proxy_request Reference.library
              (Reference.upstream
                 (Ok (mkHTTPResponse 200
                        [("Set-Cookie", "session=abc; Secure; HttpOnly")]
                        (Ok []))))
              GET (Reference.request "/spa-api/login")))
  = ("Set-Cookie", "session=abc; HttpOnly") :: cors_headers.
Proof.
  split; [reflexivity|].
  apply (set_cookie_secure_is_stripped
           Reference.library
           (Reference.upstream
              (Ok (mkHTTPResponse 200
                     [("Set-Cookie", "session=abc; Secure; HttpOnly")]
                     (Ok []))))
           GET (Reference.request "/spa-api/login")
           (mkRequest "https://iwalton.com/spa-api/login" None
              [("User-Agent", "Mozilla/5.0");
               ("Content-Type", "application/json")] GET)
           (Reference.request "/spa-api/login")
           (mkHTTPResponse 200
              [("Set-Cookie", "session=abc; Secure; HttpOnly")] (Ok []))
           []);
    reflexivity.
Defined.

(** C5: a request that [proxy_request] sends upstream is the only one it
    sends; its URL is the backend base URL followed by [self.path] as
    received; its headers are User-Agent and Content-Type, copied from the
    inbound request or defaulted, and Cookie when the inbound request has
    one; a GET carries no body, a POST the first declared-length bytes of
    the inbound body, or none when the declared length is absent or not
    positive. *)
Theorem outbound_request_shape lib net m self req :
  In req (outbound_requests (trace (proxy_request lib net m self))) ->
  outbound_requests (trace (proxy_request lib net m self)) = [req] /\
  full_url req = PROXY_HOST ++ path self /\
  req_method req = m /\
  req_headers req
  = (("User-Agent",
      match headers_get (headers self) "User-Agent" with
      | Some v => v
      | None => "Mozilla/5.0"
      end)
     :: ("Content-Type",
         match headers_get (headers self) "Content-Type" with
         | Some v => v
         | None => "application/json"
         end)
     :: match headers_get (headers self) "Cookie" with
        | Some c => [("Cookie", c)]
        | None => []
        end) /\
  match m with
  | POST =>
      match headers_get (headers self) "Content-Length" with
      | None => data req = None
      | Some v =>
          exists n,
            int lib v = Ok n /\
            (n <= 0 -> data req = None) /\
            (0 < n ->
             data req = Some (firstn (Z.to_nat n) (rfile self)) /\
             (Z.to_nat n <= List.length (rfile self) ->
              List.length (firstn (Z.to_nat n) (rfile self)) = Z.to_nat n)%nat)
      end
  | _ => data req = None
  end.
Proof.
  rewrite proxy_request_cases.
  assert (Hsent : forall r s,
    outbound lib m self = Ok (r, s) ->
    outbound_requests
      (trace match urlopen net r with
             | Ok response =>
                 match read response with
                 | Ok body =>
                     (Ok tt, s,
                      announcement m self :: Urlopen r
                      :: relay_head response [WfileWrite body])
                 | Raise e =>
                     (Ok tt, s,
                      announcement m self :: Urlopen r
                      :: relay_head response (error_events e))
                 end
             | Raise e =>
                 (Ok tt, s,
                  announcement m self :: Urlopen r :: error_events e)
             end) = [r]).
  { intros r s _. destruct (urlopen net r) as [response|e].
    - destruct (read response) as [body|e];
        cbn [trace snd announcement outbound_requests];
        rewrite relay_head_requests;
        [reflexivity|now rewrite outbound_requests_error_events].
    - cbn [trace snd announcement outbound_requests].
      now rewrite outbound_requests_error_events. }
  destruct (outbound lib m self) as [[r s]|e] eqn:Hout.
  - rewrite (Hsent r s eq_refl). intros [<-|[]].
    split; [reflexivity|].
    unfold outbound, declared_length in Hout.
    destruct m.
    + injection Hout as <- _. repeat split.
    + destruct (headers_get (headers self) "Content-Length") as [v|].
      * destruct (int lib v) as [n|e] eqn:Hint; [|discriminate].
        destruct (n >? 0) eqn:Hn; injection Hout as <- _;
          (repeat (split; [reflexivity|])); exists n;
          (split; [reflexivity|]); split; intros Hn'; try lia.
        -- split; [reflexivity|]. intros Hlen. now apply firstn_length_le.
        -- reflexivity.
      * cbn [Z.gtb Z.compare] in Hout. injection Hout as <- _.
        repeat split.
    + injection Hout as <- _. repeat split.
  - cbn [trace snd announcement outbound_requests].
    rewrite outbound_requests_error_events. intros [].
Qed.

Lemma outbound_request_shape_witness :
  In (mkRequest "https://iwalton.com/spa-api/save?draft=1&name=a%20b"
        (Some [x61; x62; x63])
        [("User-Agent", "curl/8.0"); ("Content-Type", "application/json");
         ("Cookie", "session=abc")] POST)
     (outbound_requests
        (trace (proxy_request Reference.library
                  (Reference.upstream (Raise (HTTPError 404 "Not Found")))
                  POST
                  (mkHandler "/spa-api/save?draft=1&name=a%20b"
                     [("user-agent", "curl/8.0"); ("COOKIE", "session=abc");
                      ("Content-Length", "3")]
                     [x61; x62; x63; x64])))) /\
  outbound_requests
    (trace (proxy_request Reference.library
              (Reference.upstream (Raise (HTTPError 404 "Not Found")))
              POST
              (mkHandler "/spa-api/save?draft=1&name=a%20b"
                 [("user-agent", "curl/8.0"); ("COOKIE", "session=abc");
                  ("Content-Length", "3")]
                 [x61; x62; x63; x64])))
  = [mkRequest "https://iwalton.com/spa-api/save?draft=1&name=a%20b"
       (Some [x61; x62; x63])
       [("User-Agent", "curl/8.0"); ("Content-Type", "application/json");
        ("Cookie", "session=abc")] POST].
Proof.
  assert (H : In (mkRequest
                    "https://iwalton.com/spa-api/save?draft=1&name=a%20b"
                    (Some [x61; x62; x63])
                    [("User-Agent", "curl/8.0");
                     ("Content-Type", "application/json");
                     ("Cookie", "session=abc")] POST)
                 (outbound_requests
                    (trace (proxy_request Reference.library
                              (Reference.upstream
                                 (Raise (HTTPError 404 "Not Found")))
                              POST
                              (mkHandler "/spa-api/save?draft=1&name=a%20b"
                                 [("user-agent", "curl/8.0");
                                  ("COOKIE", "session=abc");
                                  ("Content-Length", "3")]
                                 [x61; x62; x63; x64])))))
    by (left; reflexivity).
  split; [exact H|].
  exact (proj1 (outbound_request_shape _ _ _ _ _ H)).
Defined.

(** ** Failures while forwarding *)


(** An upstream HTTP error reaches the caller with its code and reason. *)
Lemma upstream_http_error_is_propagated
  lib net m self req self' code reason :
  outbound lib m self = Ok (req, self') ->
  urlopen net req = Raise (HTTPError code reason) ->
  proxy_request lib net m self
  = (Ok tt, self',
     [announcement m self; Urlopen req;
      Print ("[PROXY ERROR] HTTP " ++ Str.of_Z code ++ ": " ++ reason);
      SendError code reason]) /\
  response_status (trace (proxy_request lib net m self)) = Some code.
Proof.
  intros Hout Hopen. now rewrite proxy_request_cases, Hout, Hopen.
Qed.

(** A failure raised before the upstream answered is reported as a 500
    that carries its description. *)
Lemma failure_before_answer_is_500 lib net m self type_name message :
  outbound lib m self = Raise (Exception type_name message)
  \/ (exists req self',
         outbound lib m self = Ok (req, self') /\
         urlopen net req = Raise (Exception type_name message)) ->
  response_status (trace (proxy_request lib net m self)) = Some 500 /\
  In (SendError 500 ("Proxy error: " ++ message))
     (trace (proxy_request lib net m self)).
Proof.
  rewrite proxy_request_cases.
  intros [Hout|(req & self' & Hout & Hopen)]; rewrite Hout; [|rewrite Hopen];
    cbn [trace snd announcement error_events response_status In];
    auto 6.
Qed.

(** A failure raised by [read], after the header block went out, leaves
    the upstream status as the status the caller reads; the 500 of the
    [except] clause follows [end_headers] on the same connection. *)
Lemma failure_after_headers_keeps_status
  lib net m self req self' response e :
  outbound lib m self = Ok (req, self') ->
  urlopen net req = Ok response ->
  read response = Raise e ->
  proxy_request lib net m self
  = (Ok tt, self',
     announcement m self :: Urlopen req
     :: relay_head response (error_events e)) /\
  response_status (trace (proxy_request lib net m self))
  = Some (status response).
Proof.
  intros Hout Hopen Hread.
  now rewrite proxy_request_cases, Hout, Hopen, Hread.
Qed.

(** C6 at a failing input: the upstream answers [GET /spa-api/ping] with
    status 200 and closes the connection inside the body, so [read] raises
    [IncompleteRead].  The handler has sent status 200 and the header
    block by then; the status the caller reads is 200, and the 500 error
    of the [except] clause is written after [end_headers]. *)
Theorem read_failure_reaches_caller_as_upstream_status :
  do_GET Reference.library Reference.filesystem
    (Reference.upstream
       (Ok (mkHTTPResponse 200 [("Content-Length", "11")]
              (Raise (Exception "IncompleteRead"
                        "IncompleteRead(4 bytes read, 7 more expected)")))))
    (Reference.request "/spa-api/ping")
  = (Ok tt, Reference.request "/spa-api/ping",
     [Print "[PROXY] GET /spa-api/ping -> https://iwalton.com/spa-api/ping";
      Urlopen (mkRequest "https://iwalton.com/spa-api/ping" None
                 [("User-Agent", "Mozilla/5.0");
                  ("Content-Type", "application/json")] GET);
      SendResponse 200;
      SendHeader "Content-Length" "11";
      SendHeader "Access-Control-Allow-Origin" "*";
      SendHeader "Access-Control-Allow-Methods" "GET, POST, OPTIONS";
      SendHeader "Access-Control-Allow-Headers" "Content-Type";
      EndHeaders;
      Print ("[PROXY ERROR] IncompleteRead: "
             ++ "IncompleteRead(4 bytes read, 7 more expected)");
      SendError 500
        "Proxy error: IncompleteRead(4 bytes read, 7 more expected)"]) /\
  response_status
    (trace
       (do_GET Reference.library Reference.filesystem
          (Reference.upstream
             (Ok (mkHTTPResponse 200 [("Content-Length", "11")]
                    (Raise (Exception "IncompleteRead"
                              "IncompleteRead(4 bytes read, 7 more expected)")))))
          (Reference.request "/spa-api/ping")))
  = Some 200.
Proof. split; reflexivity. Qed.

(** * Further properties of the handler *)

(** ** What [proxy_request] leaves behind *)

Lemma outbound_frame lib m self req self' :
  outbound lib m self = Ok (req, self') ->
  path self' = path self /\
  headers self' = headers self /\
  (m <> POST -> self' = self) /\
  match data req with
  | Some body => (body ++ rfile self')%list = rfile self
  | None => self' = self
  end.
Proof.
  unfold outbound. destruct m.
  - intros [= <- <-]. repeat split.
  - destruct (declared_length lib self) as [n|e]; [|discriminate].
    destruct (n >? 0); intros [= <- <-]; cbn [data path headers rfile].
    + repeat split; [congruence|apply firstn_skipn].
    + repeat split.
  - intros [= <- <-]. repeat split.
Qed.

(** The state and the upstream requests of a run, read off [outbound]. *)
Lemma proxy_request_final lib net m self :
  final (proxy_request lib net m self)
  = match outbound lib m self with
    | Ok (_, self') => self'
    | Raise _ => self
    end.
Proof.
  rewrite proxy_request_cases.
  destruct (outbound lib m self) as [[req self']|e]; [|reflexivity].
  destruct (urlopen net req) as [response|e]; [|reflexivity].
  now destruct (read response).
Qed.

Lemma proxy_request_requests lib net m self :
  outbound_requests (trace (proxy_request lib net m self))
  = match outbound lib m self with
    | Ok (req, _) => [req]
    | Raise _ => []
    end.
Proof.
  rewrite proxy_request_cases.
  destruct (outbound lib m self) as [[req self']|e].
  - destruct (urlopen net req) as [response|e].
    + destruct (read response) as [body|e];
        cbn [trace snd announcement outbound_requests];
        rewrite relay_head_requests;
        [reflexivity|now rewrite outbound_requests_error_events].
    + cbn [trace snd announcement outbound_requests].
      now rewrite outbound_requests_error_events.
  - cbn [trace snd announcement outbound_requests].
    now rewrite outbound_requests_error_events.
Qed.

Lemma error_events_status (e : exn) (rest : list event) :
  response_status (error_events e ++ rest) = Some (error_status e).
Proof. now destruct e. Qed.

Lemma error_events_headers (e : exn) : response_headers (error_events e) = [].
Proof. now destruct e. Qed.

Lemma error_events_body (e : exn) : response_body (error_events e) = [].
Proof. now destruct e. Qed.

Lemma not_eligible (p : string) :
  (forall prefix,
      In prefix forward_prefixes -> Str.startswith p prefix = false) ->
  forward_eligible p = false.
Proof.
  intros H. destruct (forward_eligible p) eqn:E; [|reflexivity].
  unfold forward_eligible in E. apply existsb_exists in E as (q & Hq & Hs).
  now rewrite (H q Hq) in Hs.
Qed.

(** ** Requests that stay local *)

(** X1: a POST whose path starts with none of the forward prefixes is
    answered with [send_error(405, "Method Not Allowed")] and nothing else:
    no upstream request is made, the body is left unread on [rfile], and
    [self] is unchanged. *)
Theorem post_outside_prefixes_is_rejected lib net self :
  (forall prefix,
      In prefix forward_prefixes ->
      Str.startswith (path self) prefix = false) ->
  do_POST lib net self
  = (Ok tt, self, [SendError 405 "Method Not Allowed"]) /\
  response_status (trace (do_POST lib net self)) = Some 405 /\
  outbound_requests (trace (do_POST lib net self)) = [] /\
  rfile (final (do_POST lib net self)) = rfile self.
Proof.
  intros H. apply not_eligible in H.
  now rewrite (do_POST_local lib net self H).
Qed.

Lemma post_outside_prefixes_is_rejected_witness :
  (forall prefix,
      In prefix forward_prefixes ->
      Str.startswith "/api/save" prefix = false) /\
  do_POST Reference.library (Reference.upstream (Ok (mkHTTPResponse 200 [] (Ok []))))
    (mkHandler "/api/save" [("Content-Length", "2")] [x7b; x7d])
  = (Ok tt, mkHandler "/api/save" [("Content-Length", "2")] [x7b; x7d],
     [SendError 405 "Method Not Allowed"]).
Proof.
  assert (H : forall prefix,
             In prefix forward_prefixes ->
             Str.startswith "/api/save" prefix = false).
  { intros prefix [<-|[<-|[<-|[]]]]; reflexivity. }
  split; [exact H|].
  exact (proj1 (post_outside_prefixes_is_rejected
                  Reference.library
                  (Reference.upstream (Ok (mkHTTPResponse 200 [] (Ok []))))
                  (mkHandler "/api/save" [("Content-Length", "2")]
                             [x7b; x7d])
                  H)).
Defined.

(** X2: a GET outside the forward prefixes whose URL path is the root, or
    has a dot in its final segment, goes to the local file handler with
    [self.path] as received, on every filesystem: neither [os.getcwd] nor
    [os.path.isdir] has a say, even when they raise. *)
Theorem file_request_ignores_filesystem lib net self p :
  forward_eligible (path self) = false ->
  urlparse_path lib (path self) = Ok p ->
  Str.contains "." (last_segment p) = true \/ p = "/" ->
  forall fs, serves_file lib fs net self.
Proof.
  intros Hfwd Hparse Hfile fs. unfold serves_file.
  rewrite (do_GET_local lib fs net self Hfwd), Hparse.
  destruct Hfile as [Hdot| ->].
  - now rewrite Hdot.
  - now rewrite andb_false_r.
Qed.

Lemma file_request_ignores_filesystem_witness :
  forward_eligible (path (Reference.request "/assets/app.js?v=3")) = false /\
  urlparse_path Reference.library
    (path (Reference.request "/assets/app.js?v=3"))
  = Ok "/assets/app.js" /\
  (Str.contains "." (last_segment "/assets/app.js") = true
   \/ "/assets/app.js" = "/") /\
  serves_file Reference.library Reference.broken_filesystem
    (Reference.upstream (Raise (HTTPError 404 "Not Found")))
    (Reference.request "/assets/app.js?v=3").
Proof.
  repeat (split; [first [reflexivity | left; reflexivity]|]).
  exact (file_request_ignores_filesystem
           Reference.library
           (Reference.upstream (Raise (HTTPError 404 "Not Found")))
           (Reference.request "/assets/app.js?v=3") "/assets/app.js"
           eq_refl eq_refl (or_introl eq_refl)
           Reference.broken_filesystem).
Defined.

(** X3: a GET outside the forward prefixes whose URL path names an
    existing directory under the working directory is not rewritten: the
    local file handler gets [self.path] as received. *)
Theorem existing_directory_is_served lib fs net self p :
  forward_eligible (path self) = false ->
  urlparse_path lib (path self) = Ok p ->
  directory_check fs p = Ok true ->
  serves_file lib fs net self.
Proof.
  intros Hfwd Hparse Hdir. unfold serves_file.
  rewrite (do_GET_local lib fs net self Hfwd), Hparse, Hdir.
  now destruct (negb _ && negb _).
Qed.

Lemma existing_directory_is_served_witness :
  forward_eligible (path (Reference.request "/assets?sort=name")) = false /\
  urlparse_path Reference.library
    (path (Reference.request "/assets?sort=name"))
  = Ok "/assets" /\
  directory_check Reference.filesystem "/assets" = Ok true /\
  serves_file Reference.library Reference.filesystem
    (Reference.upstream (Raise (HTTPError 404 "Not Found")))
    (Reference.request "/assets?sort=name").
Proof.
  repeat (split; [reflexivity|]).
  exact (existing_directory_is_served
           Reference.library Reference.filesystem
           (Reference.upstream (Raise (HTTPError 404 "Not Found")))
           (Reference.request "/assets?sort=name") "/assets"
           eq_refl eq_refl eq_refl).
Defined.

(** X4: only the final segment is tested for a dot.  A URL path
    [dir/seg] whose last segment [seg] has neither slash nor dot, and which
    is not an existing directory, gets the SPA fallback whatever [dir]
    holds, dots included; with an empty [seg] this is a path that ends in a
    slash. *)
Theorem dot_in_directory_component_falls_back lib fs net self dir seg :
  forward_eligible (path self) = false ->
  urlparse_path lib (path self) = Ok (dir ++ "/" ++ seg) ->
  Str.contains "/" seg = false ->
  Str.contains "." seg = false ->
  dir ++ "/" ++ seg <> "/" ->
  directory_check fs (dir ++ "/" ++ seg) <> Ok true ->
  serves_fallback lib fs net self.
Proof.
  intros Hfwd Hparse Hslash Hdot Hroot Hdir.
  apply (falls_back_unless_directory lib fs net self (dir ++ "/" ++ seg));
    try assumption.
  now rewrite last_segment_after_slash.
Qed.

Lemma dot_in_directory_component_falls_back_witness :
  forward_eligible (path (Reference.request "/v1.2/users")) = false /\
  urlparse_path Reference.library (path (Reference.request "/v1.2/users"))
  = Ok ("/v1.2" ++ "/" ++ "users") /\
  Str.contains "/" "users" = false /\
  Str.contains "." "users" = false /\
  "/v1.2" ++ "/" ++ "users" <> "/" /\
  directory_check Reference.filesystem ("/v1.2" ++ "/" ++ "users")
  <> Ok true /\
  serves_fallback Reference.library Reference.filesystem
    (Reference.upstream (Raise (HTTPError 404 "Not Found")))
    (Reference.request "/v1.2/users").
Proof.
  assert (Hroot : "/v1.2" ++ "/" ++ "users" <> "/") by discriminate.
  assert (Hdir : directory_check Reference.filesystem
                   ("/v1.2" ++ "/" ++ "users") <> Ok true) by discriminate.
  repeat (split; [first [reflexivity | assumption]|]).
  exact (dot_in_directory_component_falls_back
           Reference.library Reference.filesystem
           (Reference.upstream (Raise (HTTPError 404 "Not Found")))
           (Reference.request "/v1.2/users") "/v1.2" "users"
           eq_refl eq_refl eq_refl eq_refl Hroot Hdir).
Defined.


(** ** Exceptions that leave the handler *)


(** ** Forwarding: the inbound side *)

(** X7: a forwarded POST whose Content-Length is not an integer never
    reaches the upstream: the [ValueError] of [int] is caught, the caller
    gets a 500 that carries its message, and the body stays unread on
    [rfile]. *)
Theorem malformed_content_length_is_500
  lib net self value type_name message :
  headers_get (headers self) "Content-Length" = Some value ->
  int lib value = Raise (Exception type_name message) ->
  proxy_request lib net POST self
  = (Ok tt, self,
     [announcement POST self;
      Print ("[PROXY ERROR] " ++ type_name ++ ": " ++ message);
      SendError 500 ("Proxy error: " ++ message)]) /\
  outbound_requests (trace (proxy_request lib net POST self)) = [] /\
  response_status (trace (proxy_request lib net POST self)) = Some 500.
Proof.
  intros Hget Hint.
  assert (Hout : outbound lib POST self
                 = Raise (Exception type_name message)).
  { unfold outbound, declared_length. now rewrite Hget, Hint. }
  rewrite proxy_request_requests, proxy_request_cases, Hout.
  repeat split.
Qed.

Lemma malformed_content_length_is_500_witness :
  headers_get [("content-length", "12abc")] "Content-Length" = Some "12abc" /\
  int Reference.library "12abc"
  = Raise (Exception "ValueError"
             "invalid literal for int() with base 10: '12abc'") /\
  outbound_requests
    (trace (proxy_request Reference.library
              (Reference.upstream (Ok (mkHTTPResponse 200 [] (Ok []))))
              POST
              (mkHandler "/spa-api/save" [("content-length", "12abc")]
                         [x61; x62; x63])))
  = [].
Proof.
  split; [reflexivity|]. split; [reflexivity|].
  exact (proj1 (proj2 (malformed_content_length_is_500
                         Reference.library
                         (Reference.upstream
                            (Ok (mkHTTPResponse 200 [] (Ok []))))
                         (mkHandler "/spa-api/save"
                                    [("content-length", "12abc")]
                                    [x61; x62; x63])
                         "12abc" "ValueError"
                         "invalid literal for int() with base 10: '12abc'"
                         eq_refl eq_refl))).
Defined.


(** X9: the body sent upstream and what is left on [rfile] make up the
    inbound bytes again: nothing is lost, repeated or reordered, and when
    no body is sent nothing was read. *)
Theorem forwarded_body_accounts_for_rfile lib net m self req :
  In req (outbound_requests (trace (proxy_request lib net m self))) ->
  match data req with
  | Some body =>
      (body ++ rfile (final (proxy_request lib net m self)))%list
      = rfile self
  | None => final (proxy_request lib net m self) = self
  end.
Proof.
  rewrite proxy_request_requests, proxy_request_final.
  destruct (outbound lib m self) as [[r self']|e] eqn:Hout; [|intros []].
  intros [<-|[]].
  now destruct (outbound_frame _ _ _ _ _ Hout) as (_ & _ & _ & Hd).
Qed.

Lemma forwarded_body_accounts_for_rfile_witness :
  In (mkRequest "https://iwalton.com/spa-api/save" (Some [x61; x62])
        [("User-Agent", "Mozilla/5.0");
         ("Content-Type", "application/json")] POST)
     (outbound_requests
        (trace (proxy_request Reference.library
                  (Reference.upstream (Raise (HTTPError 404 "Not Found")))
                  POST
                  (mkHandler "/spa-api/save" [("Content-Length", "2")]
                             [x61; x62; x63])))) /\
  ([x61; x62]
   ++ rfile (final (proxy_request Reference.library
                      (Reference.upstream (Raise (HTTPError 404 "Not Found")))
                      POST
                      (mkHandler "/spa-api/save" [("Content-Length", "2")]
                                 [x61; x62; x63]))))%list
  = [x61; x62; x63].
Proof.
  assert (H : In (mkRequest "https://iwalton.com/spa-api/save"
                    (Some [x61; x62])
                    [("User-Agent", "Mozilla/5.0");
                     ("Content-Type", "application/json")] POST)
                 (outbound_requests
                    (trace (proxy_request Reference.library
                              (Reference.upstream
                                 (Raise (HTTPError 404 "Not Found")))
                              POST
                              (mkHandler "/spa-api/save"
                                         [("Content-Length", "2")]
                                         [x61; x62; x63])))))
    by (left; reflexivity).
  split; [exact H|].
  exact (forwarded_body_accounts_for_rfile _ _ _ _ _ H).
Defined.

(** X10: handling one request makes at most one upstream request, and
    none at all for OPTIONS or for a path outside the forward prefixes. *)
Theorem at_most_one_upstream_request lib fs net command self :
  (List.length (outbound_requests (trace (handle lib fs net command self)))
   <= 1)%nat /\
  (command = OPTIONS \/ forward_eligible (path self) = false ->
   outbound_requests (trace (handle lib fs net command self)) = []).
Proof.
  assert (Hproxy : forall m,
    (List.length (outbound_requests (trace (proxy_request lib net m self)))
     <= 1)%nat).
  { intros m. rewrite proxy_request_requests.
    destruct (outbound lib m self) as [[req self']|e]; simpl; lia. }
  assert (Hlocal : forward_eligible (path self) = false ->
                   command <> OPTIONS ->
                   outbound_requests
                     (trace (handle lib fs net command self)) = []).
  { intros Hfwd Hcmd. destruct command; cbn [handle]; [| |congruence].
    - rewrite (do_GET_local lib fs net self Hfwd).
      destruct (urlparse_path lib (path self)) as [p|e]; [|reflexivity].
      destruct (negb _ && negb _); [|reflexivity].
      now destruct (directory_check fs p) as [[|]|].
    - now rewrite (do_POST_local lib net self Hfwd). }
  destruct command.
  - destruct (forward_eligible (path self)) eqn:Hfwd.
    + cbn [handle]. rewrite (do_GET_forward lib fs net self Hfwd).
      split; [apply Hproxy|]. intros [|]; discriminate.
    + rewrite Hlocal by congruence. split; [simpl; lia|reflexivity].
  - destruct (forward_eligible (path self)) eqn:Hfwd.
    + cbn [handle]. rewrite (do_POST_forward lib net self Hfwd).
      split; [apply Hproxy|]. intros [|]; discriminate.
    + rewrite Hlocal by congruence. split; [simpl; lia|reflexivity].
  - split; [simpl; lia|reflexivity].
Qed.

(** ** Forwarding: failures *)

(** X11: when [urlopen] raises [HTTPError], the handler answers with
    [send_error(e.code, e.reason)] and nothing of its own: no header, so no
    CORS header either, and no body write. *)
Theorem upstream_http_error_sends_only_the_error
  lib net m self req self' code reason :
  outbound lib m self = Ok (req, self') ->
  urlopen net req = Raise (HTTPError code reason) ->
  trace (proxy_request lib net m self)
  = [announcement m self; Urlopen req;
     Print ("[PROXY ERROR] HTTP " ++ Str.of_Z code ++ ": " ++ reason);
     SendError code reason] /\
  response_status (trace (proxy_request lib net m self)) = Some code /\
  response_headers (trace (proxy_request lib net m self)) = [] /\
  response_body (trace (proxy_request lib net m self)) = [].
Proof.
  intros Hout Hopen. rewrite proxy_request_cases, Hout, Hopen.
  repeat split.
Qed.

Lemma upstream_http_error_sends_only_the_error_witness :
  outbound Reference.library GET (Reference.request "/spa-api/missing")
  = Ok (mkRequest "https://iwalton.com/spa-api/missing" None
          [("User-Agent", "Mozilla/5.0");
           ("Content-Type", "application/json")] GET,
        Reference.request "/spa-api/missing") /\
  response_status
    (trace (proxy_request Reference.library
              (Reference.upstream (Raise (HTTPError 404 "Not Found")))
              GET (Reference.request "/spa-api/missing")))
  = Some 404.
Proof.
  split; [reflexivity|].
  exact (proj1 (proj2 (upstream_http_error_sends_only_the_error
                         Reference.library
                         (Reference.upstream
                            (Raise (HTTPError 404 "Not Found")))
                         GET (Reference.request "/spa-api/missing")
                         (mkRequest "https://iwalton.com/spa-api/missing"
                            None
                            [("User-Agent", "Mozilla/5.0");
                             ("Content-Type", "application/json")] GET)
                         (Reference.request "/spa-api/missing")
                         404 "Not Found" eq_refl eq_refl))).
Defined.

(** X12: when [urlopen] raises any other exception, the handler answers
    with [send_error(500, "Proxy error: " + str(e))] and nothing of its
    own: no header and no body write. *)
Theorem upstream_failure_sends_only_a_500
  lib net m self req self' type_name message :
  outbound lib m self = Ok (req, self') ->
  urlopen net req = Raise (Exception type_name message) ->
  trace (proxy_request lib net m self)
  = [announcement m self; Urlopen req;
     Print ("[PROXY ERROR] " ++ type_name ++ ": " ++ message);
     SendError 500 ("Proxy error: " ++ message)] /\
  response_status (trace (proxy_request lib net m self)) = Some 500 /\
  response_headers (trace (proxy_request lib net m self)) = [] /\
  response_body (trace (proxy_request lib net m self)) = [].
Proof.
  intros Hout Hopen. rewrite proxy_request_cases, Hout, Hopen.
  repeat split.
Qed.

Lemma upstream_failure_sends_only_a_500_witness :
  outbound Reference.library GET (Reference.request "/theme/site.css")
  = Ok (mkRequest "https://iwalton.com/theme/site.css" None
          [("User-Agent", "Mozilla/5.0");
           ("Content-Type", "application/json")] GET,
        Reference.request "/theme/site.css") /\
  response_status
    (trace (proxy_request Reference.library
              (Reference.upstream
                 (Raise (Exception "URLError"
                           "<urlopen error [Errno 111] Connection refused>")))
              GET (Reference.request "/theme/site.css")))
  = Some 500.
Proof.
  split; [reflexivity|].
  exact (proj1 (proj2 (upstream_failure_sends_only_a_500
                         Reference.library
                         (Reference.upstream
                            (Raise (Exception "URLError"
                                      "<urlopen error [Errno 111] Connection refused>")))
                         GET (Reference.request "/theme/site.css")
                         (mkRequest "https://iwalton.com/theme/site.css"
                            None
                            [("User-Agent", "Mozilla/5.0");
                             ("Content-Type", "application/json")] GET)
                         (Reference.request "/theme/site.css")
                         "URLError"
                         "<urlopen error [Errno 111] Connection refused>"
                         eq_refl eq_refl))).
Defined.

(** X13: when the upstream has answered and [read] then raises, the
    handler has sent the upstream status, the relayed headers, the CORS
    headers and [end_headers]; it writes no body byte, and [send_error]
    follows the finished header block. *)
Theorem read_failure_follows_the_header_block
  lib net m self req self' response e :
  outbound lib m self = Ok (req, self') ->
  urlopen net req = Ok response ->
  read response = Raise e ->
  trace (proxy_request lib net m self)
  = (announcement m self :: Urlopen req
     :: SendResponse (status response)
     :: header_events (relayed_headers (resp_headers response))
     ++ header_events cors_headers
     ++ EndHeaders :: error_events e)%list /\
  response_status (trace (proxy_request lib net m self))
  = Some (status response) /\
  response_headers (trace (proxy_request lib net m self))
  = (relayed_headers (resp_headers response) ++ cors_headers)%list /\
  response_body (trace (proxy_request lib net m self)) = [].
Proof.
  intros Hout Hopen Hread.
  rewrite proxy_request_cases, Hout, Hopen, Hread.
  cbn [trace snd announcement response_status response_headers
       response_body].
  rewrite relay_head_headers, relay_head_body.
  rewrite error_events_headers, error_events_body, app_nil_r.
  repeat split.
Qed.

Lemma read_failure_follows_the_header_block_witness :
  outbound Reference.library GET (Reference.request "/spa-api/list")
  = Ok (mkRequest "https://iwalton.com/spa-api/list" None
          [("User-Agent", "Mozilla/5.0");
           ("Content-Type", "application/json")] GET,
        Reference.request "/spa-api/list") /\
  response_status
    (trace (proxy_request Reference.library
              (Reference.upstream
                 (Ok (mkHTTPResponse 201 [("Connection", "close")]
                        (Raise (Exception "ConnectionResetError"
                                  "[Errno 104] Connection reset by peer")))))
              GET (Reference.request "/spa-api/list")))
  = Some 201.
Proof.
  split; [reflexivity|].
  exact (proj1 (proj2 (read_failure_follows_the_header_block
                         Reference.library
                         (Reference.upstream
                            (Ok (mkHTTPResponse 201 [("Connection", "close")]
                                   (Raise (Exception "ConnectionResetError"
                                             "[Errno 104] Connection reset by peer")))))
                         GET (Reference.request "/spa-api/list")
                         (mkRequest "https://iwalton.com/spa-api/list" None
                            [("User-Agent", "Mozilla/5.0");
                             ("Content-Type", "application/json")] GET)
                         (Reference.request "/spa-api/list")
                         (mkHTTPResponse 201 [("Connection", "close")]
                            (Raise (Exception "ConnectionResetError"
                                      "[Errno 104] Connection reset by peer")))
                         (Exception "ConnectionResetError"
                            "[Errno 104] Connection reset by peer")
                         eq_refl eq_refl eq_refl))).
Defined.

(** ** The rewrite of header values *)

Lemma occurs_head (pat s : string) :
  Str.startswith s pat = true -> Str.occurs pat s = true.
Proof. intros H. destruct s; cbn [Str.occurs]; now rewrite H. Qed.

(** [occurs] is the substring test. *)
Lemma occurs_iff (pat s : string) :
  Str.occurs pat s = true <-> exists a b, s = a ++ pat ++ b.
Proof.
  split.
  - induction s as [|c s IH]; cbn [Str.occurs]; intros H.
    + rewrite orb_false_r in H. apply startswith_inv in H as [b E].
      now exists "", b.
    + apply orb_true_iff in H as [H|H].
      * apply startswith_inv in H as [b E]. now exists "", b.
      * destruct (IH H) as (a & b & ->). now exists (String c a), b.
  - intros (a & b & ->). induction a as [|c a IH].
    + apply occurs_head. exact (startswith_app pat b).
    + cbn [append Str.occurs]. rewrite IH. apply orb_true_r.
Qed.

Lemma Subseq_refl (s : string) : Subseq s s.
Proof. induction s; now constructor. Qed.

Lemma Subseq_trans (a b c : string) :
  Subseq a b -> Subseq b c -> Subseq a c.
Proof.
  intros Hab Hbc. revert a Hab.
  induction Hbc as [|x b c _ IH|x b c _ IH]; intros a Hab.
  - exact Hab.
  - inversion Hab; subst.
    + apply Subseq_keep. now apply IH.
    + apply Subseq_drop. now apply IH.
  - apply Subseq_drop. now apply IH.
Qed.

Lemma Subseq_after (p r s : string) : Subseq r s -> Subseq r (p ++ s).
Proof.
  intros H. induction p as [|a p IH]; [exact H|].
  cbn [append]. now apply Subseq_drop.
Qed.

Lemma Removed_Subseq (pat s r : string) : Removed pat s r -> Subseq r s.
Proof.
  induction 1 as [|a s r _ _ IH|s r _ IH].
  - constructor.
  - now apply Subseq_keep.
  - now apply Subseq_after.
Qed.

(** X14: the Set-Cookie rewrite leaves a value as it is exactly when the
    value contains neither [; Secure] nor [;Secure]. *)
Theorem strip_secure_changes_exactly_what_contains (v : string) :
  strip_secure v = v <->
  ~ (exists a b, v = a ++ "; Secure" ++ b) /\
  ~ (exists a b, v = a ++ ";Secure" ++ b).
Proof.
  split.
  - intros H. apply strip_secure_fixed in H as [H1 H2].
    split; intros Hex; apply occurs_iff in Hex; congruence.
  - intros [H1 H2].
    assert (O1 : Str.occurs "; Secure" v = false).
    { destruct (Str.occurs "; Secure" v) eqn:E; [|reflexivity].
      apply occurs_iff in E. contradiction. }
    assert (O2 : Str.occurs ";Secure" v = false).
    { destruct (Str.occurs ";Secure" v) eqn:E; [|reflexivity].
      apply occurs_iff in E. contradiction. }
    unfold strip_secure.
    rewrite (replace_without_occurrence "; Secure" v "")
      by (discriminate || assumption).
    now rewrite (replace_without_occurrence ";Secure" v "")
      by (discriminate || assumption).
Qed.

(** X15: the value under which an upstream header is relayed is the
    upstream value with characters left out at most: relaying never adds,
    changes or reorders a character, for Set-Cookie and any other header,
    and so never lengthens a value. *)
Theorem relay_only_deletes (header value : string) :
  Subseq (relay_value header value) value /\
  (String.length (relay_value header value) <= String.length value)%nat.
Proof.
  assert (Hlen : forall r s,
             Subseq r s -> (String.length r <= String.length s)%nat).
  { induction 1; simpl; lia. }
  assert (Hsub : Subseq (relay_value header value) value).
  { unfold relay_value.
    destruct (Str.lower header =? "set-cookie")%string;
      [|apply Subseq_refl].
    unfold strip_secure.
    apply (Subseq_trans _ (Str.replace value "; Secure" "")).
    - apply (Removed_Subseq ";Secure"). now apply replace_removes.
    - apply (Removed_Subseq "; Secure"). now apply replace_removes. }
  split; [exact Hsub|now apply Hlen].
Qed.

(** ** Every request gets an answer *)



(** ** What of the inbound headers reaches the upstream *)

(** X17: the upstream request depends on the inbound header block only
    through User-Agent, Content-Type, Cookie and Content-Length.  Two
    requests for the same path and body whose header blocks agree on
    these four are forwarded as the same request; any other inbound
    header, Authorization included, is dropped. *)
Theorem only_allow_listed_headers_reach_upstream lib net m self other :
  path other = path self ->
  rfile other = rfile self ->
  (forall name,
      In name ["User-Agent"; "Content-Type"; "Cookie"; "Content-Length"] ->
      headers_get (headers other) name = headers_get (headers self) name) ->
  outbound_requests (trace (proxy_request lib net m other))
  = outbound_requests (trace (proxy_request lib net m self)).
Proof.
  intros Hpath Hrfile Hget.
  assert (Hua := Hget "User-Agent" ltac:(simpl; auto)).
  assert (Hct := Hget "Content-Type" ltac:(simpl; auto)).
  assert (Hck := Hget "Cookie" ltac:(simpl; auto)).
  assert (Hcl := Hget "Content-Length" ltac:(simpl; auto 6)).
  rewrite !proxy_request_requests.
  unfold outbound, declared_length, outbound_headers, headers_get_default.
  rewrite Hpath, Hrfile, Hua, Hct, Hck, Hcl.
  destruct m; try reflexivity.
  destruct (headers_get (headers self) "Content-Length") as [v|].
  - destruct (int lib v) as [n|e]; [|reflexivity].
    now destruct (n >? 0).
  - reflexivity.
Qed.

Lemma only_allow_listed_headers_reach_upstream_witness :
  path (mkHandler "/spa-api/me"
          [("Authorization", "Bearer t0ken"); ("Cookie", "session=abc");
           ("Accept", "text/html")] [])
  = path (mkHandler "/spa-api/me" [("cookie", "session=abc")] []) /\
  outbound_requests
    (trace (proxy_request Reference.library
              (Reference.upstream (Raise (HTTPError 404 "Not Found")))
              GET
              (mkHandler "/spa-api/me"
                 [("Authorization", "Bearer t0ken");
                  ("Cookie", "session=abc"); ("Accept", "text/html")] [])))
  = outbound_requests
      (trace (proxy_request Reference.library
                (Reference.upstream (Raise (HTTPError 404 "Not Found")))
                GET
                (mkHandler "/spa-api/me" [("cookie", "session=abc")] []))).
Proof.
  assert (Hget : forall name,
             In name ["User-Agent"; "Content-Type"; "Cookie";
                      "Content-Length"] ->
             headers_get
               (headers (mkHandler "/spa-api/me"
                           [("Authorization", "Bearer t0ken");
                            ("Cookie", "session=abc");
                            ("Accept", "text/html")] []))
               name
             = headers_get
                 (headers (mkHandler "/spa-api/me"
                             [("cookie", "session=abc")] []))
                 name).
  { intros name [<-|[<-|[<-|[<-|[]]]]]; reflexivity. }
  split; [reflexivity|].
  exact (only_allow_listed_headers_reach_upstream
           Reference.library
           (Reference.upstream (Raise (HTTPError 404 "Not Found")))
           GET
           (mkHandler "/spa-api/me" [("cookie", "session=abc")] [])
           (mkHandler "/spa-api/me"
              [("Authorization", "Bearer t0ken"); ("Cookie", "session=abc");
               ("Accept", "text/html")] [])
           eq_refl eq_refl Hget).
Defined.
